(** * Hit-counter relay and hello handlers: a shallow embedding

    The repository holds four Lambda handlers:
      - [lambda/typescript/hitcounter.ts]  (AWS SDK v3)   -> [HitCounterTS]
      - [lambda/javascript/hitcounter.js]  (AWS SDK v2)   -> [HitCounterJS]
      - [lambda/typescript/hello.ts]                      -> [HelloTS]
      - [lambda/javascript/hello.js]                      -> [HelloJS]

    A handler is an [async] function whose body is a straight line of
    awaited calls.  It is embedded as a computation in a small monad that
    threads the DynamoDB state, records every call made to a collaborator
    (console, Powertools, DynamoDB, Lambda) in order, and stops at the
    first thrown exception or rejected promise.

    What is taken for granted about the collaborators:
      - console and Powertools calls return without throwing;
      - a DynamoDB call whose promise is rejected has changed nothing;
      - the Lambda service reads the DynamoDB state and does not write it;
      - strings are byte strings, the UTF-8 form of the JavaScript ones;
      - the JavaScript engine has the stack and the memory a run needs.
    Each file exports [handler], which is [lambdaHandler] run inside the
    middy middlewares of Powertools; the statements are about
    [lambdaHandler]. *)

From Stdlib Require Import ZArith Strings.String Strings.Ascii Strings.Byte List Lia.
From Stdlib Require Import DecimalString.
From stdpp Require Import base option list strings gmap.
Import ListNotations.

Local Open Scope Z_scope.
Local Open Scope string_scope.

(** ** JavaScript values *)

#[local] Set Warnings "-register-all".

(** The values an event ([event: any]) and a parsed response can take:
    what [JSON.parse] produces, plus [undefined], which is what reading a
    missing property gives.  Numbers are carried by their integer value;
    the only number literals of the sources are [1] and [200].  An object
    is its list of own properties in insertion order. *)
Inductive value : Type :=
| Undefined
| Null
| Bool (b : bool)
| Num (n : Z)
| Str (s : string)
| Arr (elems : list value)
| Obj (props : list (string * value)).

(** What an AWS SDK client rejects a promise with. *)
Record SdkError := { error_name : string }.

(** What a JavaScript [throw] or a rejected promise carries in these
    handlers.  A rejection of an awaited SDK call is rethrown as it is; the
    last two constructors record which client's promise was rejected. *)
Inductive JsError : Type :=
| TypeError
| SyntaxError
| DynamoDBClientError (e : SdkError)
| LambdaClientError (e : SdkError).

Definition Result (A : Type) : Type := (JsError + A)%type.

(** The three failure classes the specification gives the relay, and the
    one left for an exception of the JavaScript runtime itself. *)
Inductive ErrorKind : Type :=
| CounterStoreError
| DownstreamInvocationError
| MalformedDownstreamResponse
| RuntimeError.

Definition error_kind (e : JsError) : ErrorKind :=
  match e with
  | DynamoDBClientError _ => CounterStoreError
  | LambdaClientError _ => DownstreamInvocationError
  | SyntaxError => MalformedDownstreamResponse
  | TypeError => RuntimeError
  end.

Definition is_nullish (v : value) : bool :=
  match v with
  | Undefined | Null => true
  | _ => false
  end.

(** [props[key]] on an own-property list; [undefined] when absent. *)
Fixpoint obj_get (props : list (string * value)) (key : string) : value :=
  match props with
  | [] => Undefined
  | (k, v) :: rest => if String.eqb k key then v else obj_get rest key
  end.

(** [event.path].  Reading a property of [null] or [undefined] throws a
    [TypeError]; primitives and arrays have no property called [path]. *)
Definition event_path (event : value) : Result value :=
  match event with
  | Undefined | Null => inl TypeError
  | Obj props => inr (obj_get props "path")
  | Bool _ | Num _ | Str _ | Arr _ => inr Undefined
  end.

Definition DQUOTE : string := String (ascii_of_nat 34) EmptyString.
Definition NEWLINE : string := String (ascii_of_nat 10) EmptyString.

(** The parts of the JavaScript runtime the handlers call and that are not
    written in this repository. *)
Class JSRuntime : Type := {
  (** [Number.prototype.toString] *)
  Number_toString : Z -> string;
  (** [JSON.parse]; [None] stands for the thrown [SyntaxError] *)
  JSON_parse : string -> option value;
  (** [JSON.stringify] of a value that is not [undefined] *)
  JSON_stringify : value -> string;
  (** the text [undefined] is not JSON *)
  JSON_parse_undefined : JSON_parse "undefined" = None
}.

(** Is [key] an own property of the object? *)
Fixpoint has_own (props : list (string * value)) (key : string) : bool :=
  match props with
  | [] => false
  | (k, _) :: rest => String.eqb k key || has_own rest key
  end.

Section Join.
Variable show : value -> Result string.

(** [Array.prototype.join] with the separator [,]: [null] and
    [undefined] are printed as nothing, the other elements by [show]. *)
Fixpoint Array_join (elems : list value) : Result string :=
  match elems with
  | [] => inr EmptyString
  | e :: rest =>
      match (if is_nullish e then inr EmptyString else show e) with
      | inl err => inl err
      | inr s =>
          match rest with
          | [] => inr s
          | _ :: _ =>
              match Array_join rest with
              | inl err => inl err
              | inr t => inr (s ++ "," ++ t)
              end
          end
      end
  end.
End Join.

Section ToString.
Context {rt : JSRuntime}.

(** [ToString], as applied by a template literal [`${v}`].  An object is
    first made a primitive by its [toString] method.  None of the values
    above is a function, so an object with an own property [toString] has
    no callable [toString]; its [valueOf], own or inherited, gives no
    primitive either, and the conversion throws a [TypeError].  Any other
    object inherits [Object.prototype.toString].  An array inherits
    [Array.prototype.toString], which joins its elements with commas,
    [null] and [undefined] printed as nothing, the others converted in
    turn. *)
Fixpoint ToString (v : value) : Result string :=
  match v with
  | Undefined => inr "undefined"
  | Null => inr "null"
  | Bool true => inr "true"
  | Bool false => inr "false"
  | Num n => inr (Number_toString n)
  | Str s => inr s
  | Arr elems => Array_join ToString elems
  | Obj props =>
      if has_own props "toString" then inl TypeError else inr "[object Object]"
  end.
End ToString.

(** ** Buffers *)

(** A JavaScript string is kept as its UTF-8 bytes, so [Buffer.from(s)] and
    [buf.toString()] only change the carrier. *)
Definition Uint8Array : Type := list byte.

(** The [Payload] member of an invocation request: SDK v3 types it
    [Uint8Array], SDK v2 [Buffer | Uint8Array | Blob | string]. *)
Inductive Blob : Type :=
| Bytes (b : Uint8Array)
| Text (s : string).

Definition Buffer_from_string (s : string) : Uint8Array := list_byte_of_string s.
Definition Buffer_toString (b : Uint8Array) : string := string_of_list_byte b.

(** [Buffer.from(bytes)] copies the bytes. *)
Definition Buffer_from_bytes (b : Uint8Array) : Uint8Array := b.

(** The bytes a request payload is sent as. *)
Definition Blob_bytes (p : Blob) : Uint8Array :=
  match p with
  | Bytes b => b
  | Text s => Buffer_from_string s
  end.

(** ** The AWS collaborators *)

(** [process.env]; an unset variable reads [undefined]. *)
Record ProcessEnv := {
  HITS_TABLE_NAME : option string;
  DOWNSTREAM_FUNCTION_NAME : option string
}.

Record Context := { awsRequestId : string }.

(** Input of [UpdateCommand] (document client) and of [updateItem]. *)
Record UpdateItemInput := {
  TableName : option string;
  Key : value;
  UpdateExpression : string;
  ExpressionAttributeValues : value
}.

(** Input of [InvokeCommand] and of [lambda.invoke]. *)
Record InvocationRequest := {
  FunctionName : option string;
  Payload : Blob
}.

Record InvocationResponse := {
  StatusCode : Z;
  FunctionError : option string;
  ResponsePayload : option Uint8Array
}.

(** The DynamoDB state: table name to items, an item being reduced to its
    partition key [path] and its number attribute [hits]. *)
Abbreviation DB := (gmap string (gmap string Z)).

(** What the two service clients answer.  An [inl] is a rejected promise.
    The Lambda service is given the DynamoDB state at the moment the
    request reaches it. *)
Record Aws := {
  UpdateItem : UpdateItemInput -> DB -> SdkError + DB;
  Invoke : InvocationRequest -> DB -> SdkError + InvocationResponse
}.

Inductive MetricUnit : Type := Count.

Inductive LogItem : Type :=
| LogValue (v : value)
| LogResponse (r : InvocationResponse).

(** One entry per call that leaves the handler. *)
Inductive Effect : Type :=
| ConsoleLog (msg : string) (data : value)
| LoggerInfo (msg : string) (data : LogItem)
| TracerPutAnnotation (key : string) (val : string)
| TracerPutMetadata (key : string) (val : value)
| MetricsAddMetric (name : string) (u : MetricUnit) (val : Z)
| MetricsPublishStoredMetrics
| DynamoDBUpdateItem (input : UpdateItemInput)
| LambdaInvoke (req : InvocationRequest) (seen : DB).

(** ** The handler monad *)

(** A computation takes the DynamoDB state and gives its result (or the
    exception), the new state and the calls it made, oldest first. *)
Definition M (A : Type) : Type := DB -> Result A * DB * list Effect.

Definition ret {A} (a : A) : M A := fun db => (inr a, db, []).

Definition throw {A} (e : JsError) : M A := fun db => (inl e, db, []).

Definition bind {A B} (m : M A) (f : A -> M B) : M B :=
  fun db =>
    match m db with
    | (inl e, db1, fx1) => (inl e, db1, fx1)
    | (inr a, db1, fx1) =>
        match f a db1 with
        | (r, db2, fx2) => (r, db2, (fx1 ++ fx2)%list)
        end
    end.

Definition emit (fx : Effect) : M unit := fun db => (inr tt, db, [fx]).

Definition lift {A} (r : Result A) : M A := fun db => (r, db, []).

Declare Scope relay_scope.
Delimit Scope relay_scope with relay.
Notation "x <- m ;; k" := (bind m (fun x => k))
  (at level 100, m at next level, right associativity) : relay_scope.
Notation "m ;; k" := (bind m (fun _ => k))
  (at level 100, right associativity) : relay_scope.

Definition result_of {A} (o : Result A * DB * list Effect) : Result A := o.1.1.
Definition store_of {A} (o : Result A * DB * list Effect) : DB := o.1.2.
Definition effects_of {A} (o : Result A * DB * list Effect) : list Effect := o.2.

(** Console and Powertools calls: recorded, never failing. *)
Definition console_log (msg : string) (data : value) : M unit :=
  emit (ConsoleLog msg data).
Definition logger_info (msg : string) (data : LogItem) : M unit :=
  emit (LoggerInfo msg data).
Definition tracer_putAnnotation (key val : string) : M unit :=
  emit (TracerPutAnnotation key val).
Definition tracer_putMetadata (key : string) (val : value) : M unit :=
  emit (TracerPutMetadata key val).
Definition metrics_addMetric (name : string) (u : MetricUnit) (val : Z) : M unit :=
  emit (MetricsAddMetric name u val).
Definition metrics_publishStoredMetrics : M unit :=
  emit MetricsPublishStoredMetrics.

Section Clients.
Variable aws : Aws.

(** [await client.send(new UpdateCommand(input))] and
    [await dynamo.updateItem(input).promise()] *)
Definition await_update (input : UpdateItemInput) : M unit :=
  fun db =>
    match UpdateItem aws input db with
    | inl e => (inl (DynamoDBClientError e), db, [DynamoDBUpdateItem input])
    | inr db' => (inr tt, db', [DynamoDBUpdateItem input])
    end.

(** [await client.send(new InvokeCommand(req))] and
    [await lambda.invoke(req).promise()] *)
Definition await_invoke (req : InvocationRequest) : M InvocationResponse :=
  fun db =>
    match Invoke aws req db with
    | inl e => (inl (LambdaClientError e), db, [LambdaInvoke req db])
    | inr resp => (inr resp, db, [LambdaInvoke req db])
    end.
End Clients.

(** [JSON.parse(text)] as a statement: a [SyntaxError] when it fails. *)
Definition parse_or_throw {rt : JSRuntime} (text : string) : M value :=
  match JSON_parse text with
  | Some v => ret v
  | None => throw SyntaxError
  end.

Local Open Scope relay_scope.

(** ** lambda/typescript/hitcounter.ts *)
Module HitCounterTS.
Section Handler.
Context {rt : JSRuntime}.
Variable env : ProcessEnv.
Variable aws : Aws.

Definition updateCommand (path : value) : UpdateItemInput :=
  {| TableName := HITS_TABLE_NAME env;
     Key := Obj [("path", path)];
     UpdateExpression := "ADD hits :incr";
     ExpressionAttributeValues := Obj [(":incr", Num 1)] |}.

Definition invokeCommand (event : value) : InvocationRequest :=
  {| FunctionName := DOWNSTREAM_FUNCTION_NAME env;
     Payload := Bytes (Buffer_from_string (JSON_stringify event)) |}.

Definition lambdaHandler (event : value) (context : Context) : M value :=
  console_log "Incoming Request:" (Obj [("event", event)]) ;;
  logger_info "Incoming Request:" (LogValue (Obj [("event", event)])) ;;
  tracer_putAnnotation "awsRequestId" (awsRequestId context) ;;
  tracer_putMetadata "eventPayload" event ;;
  path <- lift (event_path event) ;;
  await_update aws (updateCommand path) ;;
  metrics_addMetric "hit" Count 1 ;;
  metrics_publishStoredMetrics ;;
  resp <- await_invoke aws (invokeCommand event) ;;
  logger_info "Downstream Response:" (LogResponse resp) ;;
  match ResponsePayload resp with
  | Some payload => parse_or_throw (Buffer_toString (Buffer_from_bytes payload))
  | None => ret (Obj [])
  end.
End Handler.
End HitCounterTS.

(** ** lambda/javascript/hitcounter.js *)
Module HitCounterJS.
Section Handler.
Context {rt : JSRuntime}.
Variable env : ProcessEnv.
Variable aws : Aws.

Definition updateItemParams (path : value) : UpdateItemInput :=
  {| TableName := HITS_TABLE_NAME env;
     Key := Obj [("path", Obj [("S", path)])];
     UpdateExpression := "ADD hits :incr";
     ExpressionAttributeValues := Obj [(":incr", Obj [("N", Str "1")])] |}.

Definition invokeParams (event : value) : InvocationRequest :=
  {| FunctionName := DOWNSTREAM_FUNCTION_NAME env;
     Payload := Text (JSON_stringify event) |}.

(** [JSON.parse(resp.Payload)] first turns its argument into a string. *)
Definition Payload_toString (p : option Uint8Array) : string :=
  match p with
  | None => "undefined"
  | Some b => Buffer_toString b
  end.

Definition lambdaHandler (event : value) (context : Context) : M value :=
  console_log "Incoming Request:" (Obj [("event", event)]) ;;
  logger_info "Incoming Request:" (LogValue (Obj [("event", event)])) ;;
  tracer_putAnnotation "awsRequestId" (awsRequestId context) ;;
  tracer_putMetadata "eventPayload" event ;;
  path <- lift (event_path event) ;;
  await_update aws (updateItemParams path) ;;
  metrics_addMetric "hit" Count 1 ;;
  metrics_publishStoredMetrics ;;
  resp <- await_invoke aws (invokeParams event) ;;
  logger_info "Downstream Response:" (LogResponse resp) ;;
  parse_or_throw (Payload_toString (ResponsePayload resp)).
End Handler.
End HitCounterJS.

(** ** lambda/typescript/hello.ts *)
Module HelloTS.
Section Handler.
Context {rt : JSRuntime}.

Definition lambdaHandler (event : value) (context : Context) : M value :=
  console_log "Incoming Request:" (Obj [("event", event)]) ;;
  logger_info "Incoming Request:" (LogValue (Obj [("event", event)])) ;;
  tracer_putAnnotation "awsRequestId" (awsRequestId context) ;;
  tracer_putMetadata "eventPayload" event ;;
  path <- lift (event_path event) ;;
  shown <- lift (ToString path) ;;
  ret (Obj [("statusCode", Num 200);
            ("headers", Obj [("Content-Type", Str "text/plain")]);
            ("body", Str ("Hello, World! You've hit " ++ DQUOTE ++ shown
                          ++ DQUOTE ++ "." ++ NEWLINE))]).
End Handler.
End HelloTS.

(** ** lambda/javascript/hello.js *)
Module HelloJS.
Section Handler.
Context {rt : JSRuntime}.

Definition lambdaHandler (event : value) (context : Context) : M value :=
  console_log "Incoming Request:" (Obj [("event", event)]) ;;
  logger_info "Incoming Request:" (LogValue (Obj [("event", event)])) ;;
  tracer_putAnnotation "awsRequestId" (awsRequestId context) ;;
  tracer_putMetadata "eventPayload" event ;;
  path <- lift (event_path event) ;;
  shown <- lift (ToString path) ;;
  ret (Obj [("statusCode", Num 200);
            ("headers", Obj [("Content-Type", Str "text/plain")]);
            ("body", Str ("Hello, World! You've hit " ++ DQUOTE ++ shown
                          ++ DQUOTE ++ "." ++ NEWLINE))]).
End Handler.
End HelloJS.

(** * Reference collaborators

    The theorems below hold for every [JSRuntime] and every [Aws].  The
    instances of this part make the handlers runnable: a DynamoDB with the
    table of [lib/hitcounter.ts] (partition key [path] of type STRING), a
    Lambda service that runs a deployed handler, and a JSON codec. *)

(** ** DynamoDB *)

Definition hits (db : DB) (table path : string) : Z :=
  match db !! table with
  | Some items => default 0 (items !! path)
  | None => 0
  end.

Fixpoint digits_value (acc : Z) (s : string) : option Z :=
  match s with
  | EmptyString => Some acc
  | String c rest =>
      let n := Z.of_nat (nat_of_ascii c) in
      if ((48 <=? n)%Z && (n <=? 57)%Z)%bool then digits_value (10 * acc + (n - 48)) rest
      else None
  end.

(** The number in the text of an [N] attribute (an optional sign and
    digits are all this model reads). *)
Definition decimal_value (s : string) : option Z :=
  match s with
  | EmptyString => None
  | String c rest =>
      if Ascii.eqb c "-"%char
      then match rest with
           | EmptyString => None
           | _ => Z.opp <$> digits_value 0 rest
           end
      else digits_value 0 s
  end.

Definition ValidationException : SdkError :=
  {| error_name := "ValidationException" |}.
Definition ResourceNotFoundException : SdkError :=
  {| error_name := "ResourceNotFoundException" |}.
Definition ServiceUnavailable : SdkError :=
  {| error_name := "ServiceUnavailable" |}.

(** [UpdateItem] on attribute-value input.  The action [ADD hits :incr]
    adds the number to attribute [hits] of the item with the given key and
    creates the item, counting from 0, when there is none.  Any other
    update expression is outside this model and is refused. *)
Definition DynamoDB_UpdateItem (input : UpdateItemInput) (db : DB) : SdkError + DB :=
  match TableName input with
  | None => inl ValidationException
  | Some table =>
      match db !! table with
      | None => inl ResourceNotFoundException
      | Some items =>
          match Key input with
          | Obj [(k, Obj [(ty, Str p)])] =>
              if negb (String.eqb k "path" && String.eqb ty "S") then inl ValidationException
              else if String.eqb p EmptyString then inl ValidationException
              else if negb (String.eqb (UpdateExpression input) "ADD hits :incr")
              then inl ValidationException
              else
                match ExpressionAttributeValues input with
                | Obj [(ph, Obj [(nty, Str d)])] =>
                    if String.eqb ph ":incr" && String.eqb nty "N"
                    then match decimal_value d with
                         | Some n =>
                             inr (<[table := <[p := default 0 (items !! p) + n]> items]> db)
                         | None => inl ValidationException
                         end
                    else inl ValidationException
                | _ => inl ValidationException
                end
          | _ => inl ValidationException
          end
      end
  end.

Section Marshall.
Context {rt : JSRuntime}.

(** [marshall] of [@aws-sdk/util-dynamodb], default options: a native
    value to an attribute value; [undefined] is refused. *)
Fixpoint marshall (v : value) : option value :=
  match v with
  | Undefined => None
  | Null => Some (Obj [("NULL", Bool true)])
  | Bool b => Some (Obj [("BOOL", Bool b)])
  | Num n => Some (Obj [("N", Str (Number_toString n))])
  | Str s => Some (Obj [("S", Str s)])
  | Arr elems =>
      (fun l => Obj [("L", Arr l)]) <$> mapM marshall elems
  | Obj props =>
      (fun l => Obj [("M", Obj l)]) <$>
      mapM (fun kv => let '(k, x) := kv in (fun y => (k, y)) <$> marshall x) props
  end.

Definition marshall_members (v : value) : option value :=
  match v with
  | Obj props =>
      Obj <$> mapM (fun kv => let '(k, x) := kv in (fun y => (k, y)) <$> marshall x) props
  | _ => None
  end.

(** [DynamoDBDocumentClient.send(new UpdateCommand(input))]: marshall
    [Key] and [ExpressionAttributeValues], then call the service. *)
Definition DocumentClient_update (input : UpdateItemInput) (db : DB) : SdkError + DB :=
  match marshall_members (Key input), marshall_members (ExpressionAttributeValues input) with
  | Some key, Some vals =>
      DynamoDB_UpdateItem
        {| TableName := TableName input;
           Key := key;
           UpdateExpression := UpdateExpression input;
           ExpressionAttributeValues := vals |} db
  | _, _ => inl {| error_name := "Error" |}
  end.

(** The same client in front of any endpoint: what cannot be marshalled
    fails in the client, and no request is sent. *)
Definition DocumentClient_send (service : UpdateItemInput -> DB -> SdkError + DB)
    (input : UpdateItemInput) (db : DB) : SdkError + DB :=
  match marshall_members (Key input), marshall_members (ExpressionAttributeValues input) with
  | Some key, Some vals =>
      service
        {| TableName := TableName input;
           Key := key;
           UpdateExpression := UpdateExpression input;
           ExpressionAttributeValues := vals |} db
  | _, _ => inl {| error_name := "Error" |}
  end.
End Marshall.

(** ** Lambda *)

Definition Handler : Type := value -> Context -> M value.

Section LambdaService.
Context {rt : JSRuntime}.

(** A synchronous [Invoke] of a deployed function: the payload is parsed
    into the event, the handler runs, and its result comes back
    serialized.  A handler that throws gives a served response with
    [FunctionError] set. *)
Definition Lambda_Invoke (functions : gmap string Handler)
    (req : InvocationRequest) (db : DB) : SdkError + InvocationResponse :=
  match FunctionName req with
  | None => inl ValidationException
  | Some name =>
      match functions !! name with
      | None => inl ResourceNotFoundException
      | Some handler =>
          match JSON_parse (Buffer_toString (Blob_bytes (Payload req))) with
          | None => inl {| error_name := "InvalidRequestContentException" |}
          | Some event =>
              match result_of (handler event {| awsRequestId := "downstream" |} db) with
              | inr v =>
                  inr {| StatusCode := 200;
                         FunctionError := None;
                         ResponsePayload :=
                           Some (Buffer_from_string (JSON_stringify v)) |}
              | inl _ =>
                  inr {| StatusCode := 200;
                         FunctionError := Some "Unhandled";
                         ResponsePayload :=
                           Some (Buffer_from_string
                             (JSON_stringify (Obj [("errorType", Str "Error")]))) |}
              end
          end
      end
  end.
End LambdaService.

(** ** A JSON codec

    A reader and a printer for the JSON texts the examples exchange:
    integers for numbers, the two-character escapes and [\u00XX] below 128
    in strings. *)
Module Json.

Definition dq : ascii := ascii_of_nat 34.
Definition bs : ascii := ascii_of_nat 92.

Definition print_number (n : Z) : string :=
  NilZero.string_of_int (Z.to_int n).

Definition hex_digit (n : nat) : ascii :=
  ascii_of_nat (if Nat.ltb n 10 then 48 + n else 87 + n).

Definition escape_char (c : ascii) : string :=
  let n := nat_of_ascii c in
  if Ascii.eqb c dq then String bs (String dq EmptyString)
  else if Ascii.eqb c bs then String bs (String bs EmptyString)
  else if Nat.eqb n 8 then String bs "b"
  else if Nat.eqb n 9 then String bs "t"
  else if Nat.eqb n 10 then String bs "n"
  else if Nat.eqb n 12 then String bs "f"
  else if Nat.eqb n 13 then String bs "r"
  else if Nat.ltb n 32
  then String bs ("u00" ++ String (hex_digit (Nat.div n 16))
                              (String (hex_digit (Nat.modulo n 16)) EmptyString))
  else String c EmptyString.

Fixpoint escape (s : string) : string :=
  match s with
  | EmptyString => EmptyString
  | String c rest => escape_char c ++ escape rest
  end.

Definition quote (s : string) : string :=
  String dq (escape s) ++ String dq EmptyString.

(** [JSON.stringify]: a property holding [undefined] is left out, an
    array element holding it is printed [null]. *)
Fixpoint stringify (v : value) : string :=
  match v with
  | Undefined | Null => "null"
  | Bool true => "true"
  | Bool false => "false"
  | Num n => print_number n
  | Str s => quote s
  | Arr elems => "[" ++ String.concat "," (map stringify elems) ++ "]"
  | Obj props =>
      "{" ++ String.concat ","
               (flat_map (fun kv =>
                    let '(k, x) := kv in
                    match x with
                    | Undefined => []
                    | _ => [quote k ++ ":" ++ stringify x]
                    end) props) ++ "}"
  end.

Definition is_ws (c : ascii) : bool :=
  let n := nat_of_ascii c in
  (Nat.eqb n 32 || Nat.eqb n 9 || Nat.eqb n 10 || Nat.eqb n 13)%bool.

Fixpoint skip_ws (s : string) : string :=
  match s with
  | String c rest => if is_ws c then skip_ws rest else s
  | EmptyString => s
  end.

Definition hex_value (c : ascii) : option nat :=
  let n := nat_of_ascii c in
  if (Nat.leb 48 n && Nat.leb n 57)%bool then Some (n - 48)%nat
  else if (Nat.leb 97 n && Nat.leb n 102)%bool then Some (n - 87)%nat
  else if (Nat.leb 65 n && Nat.leb n 70)%bool then Some (n - 55)%nat
  else None.

Definition simple_escape (c : ascii) : option ascii :=
  if Ascii.eqb c dq then Some dq
  else if Ascii.eqb c bs then Some bs
  else if Ascii.eqb c "/"%char then Some "/"%char
  else if Ascii.eqb c "b"%char then Some (ascii_of_nat 8)
  else if Ascii.eqb c "t"%char then Some (ascii_of_nat 9)
  else if Ascii.eqb c "n"%char then Some (ascii_of_nat 10)
  else if Ascii.eqb c "f"%char then Some (ascii_of_nat 12)
  else if Ascii.eqb c "r"%char then Some (ascii_of_nat 13)
  else None.

(** The characters of a string literal after its opening quote, and what
    follows the closing one. *)
Fixpoint read_string (s : string) : option (string * string) :=
  match s with
  | EmptyString => None
  | String c rest =>
      if Ascii.eqb c dq then Some (EmptyString, rest)
      else if Ascii.eqb c bs then
        match rest with
        | String "u" (String "0" (String "0" (String h1 (String h0 rest')))) =>
            match hex_value h1, hex_value h0, read_string rest' with
            | Some a, Some b, Some (str, out) =>
                if Nat.ltb a 8
                then Some (String (ascii_of_nat (16 * a + b)) str, out)
                else None
            | _, _, _ => None
            end
        | String e rest' =>
            match simple_escape e, read_string rest' with
            | Some x, Some (str, out) => Some (String x str, out)
            | _, _ => None
            end
        | EmptyString => None
        end
      else if Nat.ltb (nat_of_ascii c) 32 then None
      else match read_string rest with
           | Some (str, out) => Some (String c str, out)
           | None => None
           end
  end.

Definition is_digit (c : ascii) : bool :=
  (Nat.leb 48 (nat_of_ascii c) && Nat.leb (nat_of_ascii c) 57)%bool.

Fixpoint read_digits (acc : Z) (s : string) : Z * string :=
  match s with
  | String c rest =>
      if is_digit c
      then read_digits (10 * acc + Z.of_nat (nat_of_ascii c - 48)) rest
      else (acc, s)
  | EmptyString => (acc, s)
  end.

Definition starts_fraction (s : string) : bool :=
  match s with
  | String c _ =>
      (Ascii.eqb c "."%char || Ascii.eqb c "e"%char || Ascii.eqb c "E"%char)%bool
  | EmptyString => false
  end.

(** An integer literal: [0], or a non-zero digit and more digits. *)
Definition read_natural (s : string) : option (Z * string) :=
  match s with
  | String c rest =>
      if Ascii.eqb c "0"%char then
        match rest with
        | String d _ => if is_digit d then None else Some (0, rest)
        | EmptyString => Some (0, rest)
        end
      else if is_digit c then Some (read_digits 0 s)
      else None
  | EmptyString => None
  end.

Definition read_number (s : string) : option (Z * string) :=
  let r := match s with
           | String "-" rest =>
               match read_natural rest with
               | Some (n, out) => Some (- n, out)
               | None => None
               end
           | _ => read_natural s
           end in
  match r with
  | Some (n, out) => if starts_fraction out then None else Some (n, out)
  | None => None
  end.

Fixpoint strip_prefix (p s : string) : option string :=
  match p, s with
  | EmptyString, _ => Some s
  | String a p', String b s' => if Ascii.eqb a b then strip_prefix p' s' else None
  | String _ _, EmptyString => None
  end.

(** A later property of the same name replaces the earlier one. *)
Fixpoint obj_set (props : list (string * value)) (key : string) (v : value)
    : list (string * value) :=
  match props with
  | [] => [(key, v)]
  | (k, x) :: rest =>
      if String.eqb k key then (k, v) :: rest else (k, x) :: obj_set rest key v
  end.

Fixpoint read_value (fuel : nat) (s : string) : option (value * string) :=
  match fuel with
  | O => None
  | S fuel' =>
      match skip_ws s with
      | EmptyString => None
      | String c rest =>
          if Ascii.eqb c dq then
            match read_string rest with
            | Some (str, out) => Some (Str str, out)
            | None => None
            end
          else if Ascii.eqb c "["%char then
            match skip_ws rest with
            | String "]" out => Some (Arr [], out)
            | _ =>
                match read_elements fuel' rest with
                | Some (l, out) => Some (Arr l, out)
                | None => None
                end
            end
          else if Ascii.eqb c "{"%char then
            match skip_ws rest with
            | String "}" out => Some (Obj [], out)
            | _ =>
                match read_members fuel' [] rest with
                | Some (l, out) => Some (Obj l, out)
                | None => None
                end
            end
          else
            match strip_prefix "true" (String c rest),
                  strip_prefix "false" (String c rest),
                  strip_prefix "null" (String c rest) with
            | Some out, _, _ => Some (Bool true, out)
            | _, Some out, _ => Some (Bool false, out)
            | _, _, Some out => Some (Null, out)
            | None, None, None =>
                match read_number (String c rest) with
                | Some (n, out) => Some (Num n, out)
                | None => None
                end
            end
      end
  end
with read_elements (fuel : nat) (s : string) : option (list value * string) :=
  match fuel with
  | O => None
  | S fuel' =>
      match read_value fuel' s with
      | Some (v, out) =>
          match skip_ws out with
          | String "," out' =>
              match read_elements fuel' out' with
              | Some (l, out'') => Some (v :: l, out'')
              | None => None
              end
          | String "]" out' => Some ([v], out')
          | _ => None
          end
      | None => None
      end
  end
with read_members (fuel : nat) (acc : list (string * value)) (s : string)
    : option (list (string * value) * string) :=
  match fuel with
  | O => None
  | S fuel' =>
      match skip_ws s with
      | String c rest =>
          if Ascii.eqb c dq then
            match read_string rest with
            | Some (k, out) =>
                match skip_ws out with
                | String ":" out' =>
                    match read_value fuel' out' with
                    | Some (v, out'') =>
                        match skip_ws out'' with
                        | String "," out3 => read_members fuel' (obj_set acc k v) out3
                        | String "}" out3 => Some (obj_set acc k v, out3)
                        | _ => None
                        end
                    | None => None
                    end
                | _ => None
                end
            | None => None
            end
          else None
      | EmptyString => None
      end
  end.

(** [JSON.parse]: one value, with nothing but white space around it. *)
Definition parse (s : string) : option value :=
  match read_value (S (String.length s)) s with
  | Some (v, out) =>
      match skip_ws out with
      | EmptyString => Some v
      | String _ _ => None
      end
  | None => None
  end.

#[export] Instance runtime : JSRuntime :=
  {| Number_toString := print_number;
     JSON_parse := parse;
     JSON_stringify := stringify;
     JSON_parse_undefined := eq_refl |}.
End Json.

(** * Vocabulary of the statements *)

(** The four calls every handler makes before anything else. *)
Definition prologue (event : value) (context : Context) : list Effect :=
  [ConsoleLog "Incoming Request:" (Obj [("event", event)]);
   LoggerInfo "Incoming Request:" (LogValue (Obj [("event", event)]));
   TracerPutAnnotation "awsRequestId" (awsRequestId context);
   TracerPutMetadata "eventPayload" event].

Definition is_dynamodb_call (fx : Effect) : bool :=
  match fx with
  | DynamoDBUpdateItem _ => true
  | _ => false
  end.

Definition is_lambda_call (fx : Effect) : bool :=
  match fx with
  | LambdaInvoke _ _ => true
  | _ => false
  end.

Definition dynamodb_calls (l : list Effect) : list Effect :=
  List.filter is_dynamodb_call l.

Definition lambda_calls (l : list Effect) : list Effect :=
  List.filter is_lambda_call l.

(** [a] is recorded strictly before [b]. *)
Definition before (a b : Effect) (l : list Effect) : Prop :=
  exists l1 l2 l3, l = (l1 ++ a :: l2 ++ b :: l3)%list.

(** The handler called once per event, one call after the other; the
    DynamoDB state left by the last call. *)
Fixpoint handle_all (h : Handler) (events : list value) (context : Context)
    (db : DB) : DB :=
  match events with
  | [] => db
  | event :: rest => handle_all h rest context (store_of (h event context db))
  end.

(** [v.key] for a value that is not [null] or [undefined]. *)
Definition member (v : value) (key : string) : value :=
  match v with
  | Obj props => obj_get props key
  | _ => Undefined
  end.

(** The state after adding [n] to the counter of [p] in an existing
    table, the item being created at 0 when missing. *)
Definition add_hits (table p : string) (n : Z) (db : DB) : DB :=
  match db !! table with
  | Some items => <[table := <[p := default 0 (items !! p) + n]> items]> db
  | None => db
  end.

(** The clients of each SDK in front of the reference DynamoDB, with any
    Lambda service behind. *)
Definition v3_clients (invoke : InvocationRequest -> DB -> SdkError + InvocationResponse)
    : Aws :=
  {| UpdateItem := @DocumentClient_update Json.runtime; Invoke := invoke |}.

Definition v2_clients (invoke : InvocationRequest -> DB -> SdkError + InvocationResponse)
    : Aws :=
  {| UpdateItem := DynamoDB_UpdateItem; Invoke := invoke |}.

(** Does the event carry the string [p] as its [path]? *)
Definition path_is (p : string) (event : value) : bool :=
  match event_path event with
  | inr (Str q) => String.eqb q p
  | _ => false
  end.

(** A request whose [path] is the string [p]. *)
Definition has_path (p : string) (event : value) : Prop :=
  event_path event = inr (Str p).

(** The downstream answered, and what it answered cannot be parsed:
    there is no payload, or [JSON.parse] refuses it. *)
Definition unparseable {rt : JSRuntime} (resp : InvocationResponse) : Prop :=
  match ResponsePayload resp with
  | None => True
  | Some payload => JSON_parse (Buffer_toString (Buffer_from_bytes payload)) = None
  end.

(** The third error condition as the specification words it, for the
    TypeScript relay. *)
Definition malformed_response_always_fails : Prop :=
  forall (rt : JSRuntime) (env : ProcessEnv) (aws : Aws) (event : value)
         (context : Context) (db db1 : DB) (path : value)
         (resp : InvocationResponse),
    event_path event = inr path ->
    UpdateItem aws (HitCounterTS.updateCommand env path) db = inr db1 ->
    Invoke aws (HitCounterTS.invokeCommand env event) db1 = inr resp ->
    unparseable resp ->
    exists e,
      result_of (HitCounterTS.lambdaHandler env aws event context db) = inl e /\
      error_kind e = MalformedDownstreamResponse.

(** "The relay validates nothing" read for every event there is: each
    call issues the increment, and a failure is never an exception of the
    relay's own evaluation. *)
Definition every_request_reaches_the_store : Prop :=
  forall (rt : JSRuntime) (env : ProcessEnv) (aws : Aws) (event : value)
         (context : Context) (db : DB),
    (exists cmd,
        In (DynamoDBUpdateItem cmd)
           (effects_of (HitCounterTS.lambdaHandler env aws event context db))) /\
    (forall e,
        result_of (HitCounterTS.lambdaHandler env aws event context db) = inl e ->
        error_kind e <> RuntimeError).


(** ** The deployment of [lib/hitcounter-stack.ts] *)
Module Stack.
Definition env : ProcessEnv :=
  {| HITS_TABLE_NAME := Some "Hits";
     DOWNSTREAM_FUNCTION_NAME := Some "hello-hitcounter-function" |}.

Definition functions : gmap string Handler :=
  {[ "hello-hitcounter-function" := @HelloTS.lambdaHandler Json.runtime ]}.

(** SDK v3 clients, as [hitcounter.ts] creates them. *)
Definition aws_v3 : Aws :=
  {| UpdateItem := @DocumentClient_update Json.runtime;
     Invoke := @Lambda_Invoke Json.runtime functions |}.

(** SDK v2 clients, as [hitcounter.js] creates them. *)
Definition aws_v2 : Aws :=
  {| UpdateItem := DynamoDB_UpdateItem;
     Invoke := @Lambda_Invoke Json.runtime functions |}.

(** The table right after deployment. *)
Definition db0 : DB := {[ "Hits" := ∅ ]}.

Definition context : Context := {| awsRequestId := "c6af9ac6-7b61-11e6-9a41-93e8deadbeef" |}.

Definition get_foo : value :=
  Obj [("path", Str "/foo"); ("httpMethod", Str "GET")].

(** DynamoDB out of reach. *)
Definition aws_store_down (aws : Aws) : Aws :=
  {| UpdateItem := fun _ _ => inl ServiceUnavailable;
     Invoke := Invoke aws |}.

(** The Lambda service out of reach. *)
Definition aws_lambda_down (aws : Aws) : Aws :=
  {| UpdateItem := UpdateItem aws;
     Invoke := fun _ _ => inl ServiceUnavailable |}.

(** A Lambda service that answers with the given payload. *)
Definition aws_answering (aws : Aws) (payload : option Uint8Array) : Aws :=
  {| UpdateItem := UpdateItem aws;
     Invoke := fun _ _ =>
       inr {| StatusCode := 200; FunctionError := None;
              ResponsePayload := payload |} |}.

(** The table after one hit on [/foo]. *)
Definition db1 : DB := {[ "Hits" := {[ "/foo" := 1 ]} ]}.

(** The response of the round-trip example of the specification. *)
Definition hello_foo : value :=
  Obj [("statusCode", Num 200);
       ("body", Str ("Hello, World! You've hit " ++ DQUOTE ++ "/foo" ++ DQUOTE
                     ++ "." ++ NEWLINE))].

Definition hello_foo_payload : Uint8Array :=
  Buffer_from_string (Json.stringify hello_foo).

(** A served response without payload. *)
Definition no_payload : InvocationResponse :=
  {| StatusCode := 200; FunctionError := None; ResponsePayload := None |}.

(** What a gateway in trouble answers instead of JSON. *)
Definition bad_gateway : Uint8Array :=
  Buffer_from_string "<html>502 Bad Gateway</html>".

(** One call of each relay on the freshly deployed table. *)
Definition ts_run (aws : Aws) (event : value) : Result value * DB * list Effect :=
  @HitCounterTS.lambdaHandler Json.runtime env aws event context db0.

Definition js_run (aws : Aws) (event : value) : Result value * DB * list Effect :=
  @HitCounterJS.lambdaHandler Json.runtime env aws event context db0.

Definition ts_request (event : value) : InvocationRequest :=
  @HitCounterTS.invokeCommand Json.runtime env event.

(** Three requests for [/foo], one after the other. *)
Definition three_hits : list value :=
  [get_foo; Obj [("path", Str "/foo")]; get_foo].

Definition after_three_hits : DB :=
  handle_all (@HitCounterTS.lambdaHandler Json.runtime env (v3_clients (Invoke aws_v3)))
    three_hits context db0.
End Stack.

(** What the last statement of each relay yields for a served response. *)
Definition ts_return {rt : JSRuntime} (resp : InvocationResponse) : Result value :=
  match ResponsePayload resp with
  | Some payload =>
      match JSON_parse (Buffer_toString (Buffer_from_bytes payload)) with
      | Some v => inr v
      | None => inl SyntaxError
      end
  | None => inr (Obj [])
  end.

Definition js_return {rt : JSRuntime} (resp : InvocationResponse) : Result value :=
  match JSON_parse (HitCounterJS.Payload_toString (ResponsePayload resp)) with
  | Some v => inr v
  | None => inl SyntaxError
  end.

(** The calls of a relay run that got as far as the downstream. *)
Definition relay_calls (event : value) (context : Context)
    (cmd : UpdateItemInput) (req : InvocationRequest) (seen : DB) : list Effect :=
  (prologue event context ++
   [DynamoDBUpdateItem cmd;
    MetricsAddMetric "hit" Count 1;
    MetricsPublishStoredMetrics;
    LambdaInvoke req seen])%list.

(** * lib/ and bin/: the CDK application

    The constructs of [lib/hitcounter.ts] and [lib/hitcounter-stack.ts]
    declare resources; they are embedded as the records of what they
    declare.  Paths are relative to the root of the repository. *)

(** ** [path.join] *)
Module Path.
Fixpoint split_on (sep : ascii) (s : string) (cur : string) : list string :=
  match s with
  | EmptyString => [cur]
  | String c rest =>
      if Ascii.eqb c sep then cur :: split_on sep rest EmptyString
      else split_on sep rest (cur ++ String c EmptyString)
  end.

Definition segments (s : string) : list string := split_on "/"%char s EmptyString.

(** One segment pushed on the segments kept so far (last one first):
    an empty segment and [.] are dropped, [..] removes the segment before
    it when there is one to remove. *)
Definition push (kept : list string) (seg : string) : list string :=
  if String.eqb seg EmptyString then kept
  else if String.eqb seg "." then kept
  else if String.eqb seg ".." then
    match kept with
    | [] => [".."]
    | last :: before => if String.eqb last ".." then ".." :: kept else before
    end
  else seg :: kept.

Definition normalize (segs : list string) : list string :=
  rev (fold_left push segs []).

(** [path.join(a, b)] on relative paths that do not end in a separator;
    a path with nothing left is [.]. *)
Definition join (a b : string) : string :=
  match normalize (segments a ++ segments b)%list with
  | [] => "."
  | segs => String.concat "/" segs
  end.
End Path.

(** ** The constructs of the CDK library that the application creates *)
Module Cdk.
Inductive Runtime : Type := NODEJS_14_X.
Inductive Tracing : Type := ACTIVE.
Inductive AttributeType : Type := BINARY | NUMBER | STRING.

Record Attribute := { name : string; type : AttributeType }.

Record Table := {
  table_id : string;
  tableName : string;
  partitionKey : Attribute
}.

Record Function := {
  function_id : string;
  functionName : string;
  runtime : Runtime;
  handler : string;
  entry : string;
  minify : bool;
  tracing : Tracing;
  environment : list (string * string)
}.

Record LambdaRestApi := {
  api_id : string;
  restApiName : string;
  rest_handler : Function
}.

(** What [table.grantReadWriteData(f)] and [g.grantInvoke(f)] add to the
    role of [f]. *)
Inductive Grant : Type :=
| GrantReadWriteData (t : Table) (grantee : Function)
| GrantInvoke (f : Function) (grantee : Function).
End Cdk.

(** ** lib/hitcounter.ts and lib/hitcounter-stack.ts *)
Module Lib.
Definition __dirname : string := "lib".

Record HitCounterProps := {
  downstream : Cdk.Function;
  functionName : string;
  entryPath : string;
  tableName : string
}.

Record HitCounter := {
  construct_id : string;
  handler : Cdk.Function;
  table : Cdk.Table;
  grants : list Cdk.Grant
}.

(** [new HitCounter(scope, id, props)] *)
Definition new_HitCounter (id : string) (props : HitCounterProps) : HitCounter :=
  let table :=
    {| Cdk.table_id := tableName props;
       Cdk.tableName := tableName props;
       Cdk.partitionKey := {| Cdk.name := "path"; Cdk.type := Cdk.STRING |} |} in
  let handler :=
    {| Cdk.function_id := functionName props;
       Cdk.functionName := functionName props;
       Cdk.runtime := Cdk.NODEJS_14_X;
       Cdk.handler := "handler";
       Cdk.entry := Path.join __dirname (entryPath props);
       Cdk.minify := true;
       Cdk.tracing := Cdk.ACTIVE;
       Cdk.environment :=
         [("DOWNSTREAM_FUNCTION_NAME", Cdk.functionName (downstream props));
          ("HITS_TABLE_NAME", Cdk.tableName table)] |} in
  {| construct_id := id;
     handler := handler;
     table := table;
     grants := [Cdk.GrantReadWriteData table handler;
                Cdk.GrantInvoke (downstream props) handler] |}.

Record HitCounterStack := {
  stack_id : string;
  helloFunction : Cdk.Function;
  hitCounterFunction : HitCounter;
  endpoint : Cdk.LambdaRestApi
}.

(** [new HitCounterStack(scope, id)] *)
Definition new_HitCounterStack (id : string) : HitCounterStack :=
  let helloFunction :=
    {| Cdk.function_id := "HelloFunction";
       Cdk.functionName := "hello-hitcounter-function";
       Cdk.runtime := Cdk.NODEJS_14_X;
       Cdk.handler := "handler";
       Cdk.entry := Path.join __dirname "../lambda/typescript/hello.ts";
       Cdk.minify := true;
       Cdk.tracing := Cdk.ACTIVE;
       Cdk.environment := [] |} in
  let hitCounterFunction :=
    new_HitCounter "HitCounterFunction"
      {| downstream := helloFunction;
         functionName := "hitcounter-function";
         entryPath := "../lambda/typescript/hitcounter.ts";
         tableName := "Hits" |} in
  {| stack_id := id;
     helloFunction := helloFunction;
     hitCounterFunction := hitCounterFunction;
     endpoint :=
       {| Cdk.api_id := "HitCounterEndpoint";
          Cdk.restApiName := "hitcounter-api";
          Cdk.rest_handler := handler hitCounterFunction |} |}.
End Lib.

(** ** bin/hitcounter.ts *)
Module Bin.
Definition app : Lib.HitCounterStack := Lib.new_HitCounterStack "HitCounterStack".
End Bin.

(** ** What the declared resources are once deployed

    A function runs the code of its entry file with the environment it was
    declared with; its clients reach a table or a function only through a
    grant given to it. *)
Module Deployed.
Fixpoint env_get (environment : list (string * string)) (key : string) : option string :=
  match environment with
  | [] => None
  | (k, v) :: rest => if String.eqb k key then Some v else env_get rest key
  end.

(** [process.env] inside the function. *)
Definition process_env (f : Cdk.Function) : ProcessEnv :=
  {| HITS_TABLE_NAME := env_get (Cdk.environment f) "HITS_TABLE_NAME";
     DOWNSTREAM_FUNCTION_NAME := env_get (Cdk.environment f) "DOWNSTREAM_FUNCTION_NAME" |}.

Definition AccessDeniedException : SdkError :=
  {| error_name := "AccessDeniedException" |}.

Definition may_update (grants : list Cdk.Grant) (f : Cdk.Function)
    (table : option string) : bool :=
  existsb (fun g =>
    match g with
    | Cdk.GrantReadWriteData t grantee =>
        match table with
        | Some n => String.eqb (Cdk.tableName t) n
                    && String.eqb (Cdk.functionName grantee) (Cdk.functionName f)
        | None => false
        end
    | Cdk.GrantInvoke _ _ => false
    end) grants.

Definition may_invoke (grants : list Cdk.Grant) (f : Cdk.Function)
    (target : option string) : bool :=
  existsb (fun g =>
    match g with
    | Cdk.GrantInvoke t grantee =>
        match target with
        | Some n => String.eqb (Cdk.functionName t) n
                    && String.eqb (Cdk.functionName grantee) (Cdk.functionName f)
        | None => false
        end
    | Cdk.GrantReadWriteData _ _ => false
    end) grants.

(** Is this call of function [f] covered by a grant? *)
Definition permitted (grants : list Cdk.Grant) (f : Cdk.Function) (fx : Effect) : bool :=
  match fx with
  | DynamoDBUpdateItem input => may_update grants f (TableName input)
  | LambdaInvoke req _ => may_invoke grants f (FunctionName req)
  | _ => true
  end.

(** The service endpoints as function [f] reaches them: a request that
    arrives without grant is refused.  The check is the service's: it is
    made on the request that a client has sent. *)
Definition guarded (grants : list Cdk.Grant) (f : Cdk.Function) (services : Aws) : Aws :=
  {| UpdateItem := fun input db =>
       if may_update grants f (TableName input) then UpdateItem services input db
       else inl AccessDeniedException;
     Invoke := fun req db =>
       if may_invoke grants f (FunctionName req) then Invoke services req db
       else inl AccessDeniedException |}.

(** The clients of [lambda/typescript/hitcounter.ts] in front of the
    endpoints: the document client marshalls before it sends. *)
Definition document_clients {rt : JSRuntime} (services : Aws) : Aws :=
  {| UpdateItem := DocumentClient_send (UpdateItem services);
     Invoke := Invoke services |}.

(** An empty table for each declared one. *)
Definition provision (tables : list Cdk.Table) : DB :=
  fold_right (fun t db => <[Cdk.tableName t := ∅]> db) ∅ tables.

Inductive Source : Type := HitCounterSource | HelloSource.

Definition source_of_entry (entry : string) : option Source :=
  if String.eqb entry "lambda/typescript/hitcounter.ts" then Some HitCounterSource
  else if String.eqb entry "lambda/typescript/hello.ts" then Some HelloSource
  else None.

(** Clients that reach nothing. *)
Definition no_clients : Aws :=
  {| UpdateItem := fun _ _ => inl AccessDeniedException;
     Invoke := fun _ _ => inl AccessDeniedException |}.

Section Code.
Context {rt : JSRuntime}.

(** The function [f] as a handler: the export named by [handler] of the
    file named by [entry], run with the environment of [f].  The export
    [handler] of either file is its [lambdaHandler] inside the middy
    middlewares of Powertools; it is taken here as [lambdaHandler]. *)
Definition code (aws : Aws) (f : Cdk.Function) : option Handler :=
  if String.eqb (Cdk.handler f) "handler" then
    match source_of_entry (Cdk.entry f) with
    | Some HitCounterSource => Some (HitCounterTS.lambdaHandler (process_env f) aws)
    | Some HelloSource => Some HelloTS.lambdaHandler
    | None => None
    end
  else None.

(** The Lambda service of the stack: the hello function under its name. *)
Definition functions (s : Lib.HitCounterStack) : gmap string Handler :=
  match code no_clients (Lib.helloFunction s) with
  | Some h => {[ Cdk.functionName (Lib.helloFunction s) := h ]}
  | None => ∅
  end.

(** The endpoints of the stack: the reference DynamoDB and the Lambda
    service of the stack. *)
Definition endpoints (s : Lib.HitCounterStack) : Aws :=
  {| UpdateItem := DynamoDB_UpdateItem;
     Invoke := Lambda_Invoke (functions s) |}.

(** The clients of the hit counter function of the stack. *)
Definition clients (s : Lib.HitCounterStack) : Aws :=
  @document_clients Json.runtime
    (guarded (Lib.grants (Lib.hitCounterFunction s))
             (Lib.handler (Lib.hitCounterFunction s))
             (endpoints s)).

(** What the REST API calls for each request. *)
Definition api (s : Lib.HitCounterStack) : option Handler :=
  code (clients s) (Cdk.rest_handler (Lib.endpoint s)).
End Code.

Definition tables (s : Lib.HitCounterStack) : DB :=
  provision [Lib.table (Lib.hitCounterFunction s)].
End Deployed.

(** The greeting of the hello handlers for the path [p]. *)
Definition greeting (p : string) : value :=
  Obj [("statusCode", Num 200);
       ("headers", Obj [("Content-Type", Str "text/plain")]);
       ("body", Str ("Hello, World! You've hit " ++ DQUOTE ++ p ++ DQUOTE
                     ++ "." ++ NEWLINE))].

Definition is_metrics_call (fx : Effect) : bool :=
  match fx with
  | MetricsAddMetric _ _ _ | MetricsPublishStoredMetrics => true
  | _ => false
  end.

Definition metrics_calls (l : list Effect) : list Effect :=
  List.filter is_metrics_call l.

(** Did the increment of this call succeed? *)
Definition increment_succeeded (update : UpdateItemInput -> DB -> SdkError + DB)
    (command : value -> UpdateItemInput) (event : value) (db : DB) : bool :=
  match event_path event with
  | inr path =>
      match update (command path) db with
      | inr _ => true
      | inl _ => false
      end
  | inl _ => false
  end.

(** A served response of a function that threw. *)
Definition function_error (payload : Uint8Array) : InvocationResponse :=
  {| StatusCode := 200; FunctionError := Some "Unhandled";
     ResponsePayload := Some payload |}.

(** * Running the handlers

    Each relay has four ways to end; these lemmas compute the outcome of
    each one. *)

Ltac unfold_handler :=
  cbv [HitCounterTS.lambdaHandler HitCounterJS.lambdaHandler
       HelloTS.lambdaHandler HelloJS.lambdaHandler
       bind ret throw lift emit console_log logger_info tracer_putAnnotation
       tracer_putMetadata metrics_addMetric metrics_publishStoredMetrics
       await_update await_invoke parse_or_throw prologue relay_calls
       ts_return js_return]; cbn [app].

Section RunTS.
Context {rt : JSRuntime}.
Variables (env : ProcessEnv) (aws : Aws) (event : value) (context : Context).
Variable db : DB.

Lemma ts_run_no_event e :
  event_path event = inl e ->
  HitCounterTS.lambdaHandler env aws event context db =
    (inl e, db, prologue event context).
Proof. intros H. unfold_handler. now rewrite H. Qed.

Lemma ts_run_store_failed path e :
  event_path event = inr path ->
  UpdateItem aws (HitCounterTS.updateCommand env path) db = inl e ->
  HitCounterTS.lambdaHandler env aws event context db =
    (inl (DynamoDBClientError e), db,
         (prologue event context
            ++ [DynamoDBUpdateItem (HitCounterTS.updateCommand env path)])%list).
Proof. intros H1 H2. unfold_handler. now rewrite H1, H2. Qed.

Lemma ts_run_invoke_failed path db1 e :
  event_path event = inr path ->
  UpdateItem aws (HitCounterTS.updateCommand env path) db = inr db1 ->
  Invoke aws (HitCounterTS.invokeCommand env event) db1 = inl e ->
  HitCounterTS.lambdaHandler env aws event context db =
    (inl (LambdaClientError e), db1,
         relay_calls event context (HitCounterTS.updateCommand env path)
           (HitCounterTS.invokeCommand env event) db1).
Proof. intros H1 H2 H3. unfold_handler. now rewrite H1, H2, H3. Qed.

Lemma ts_run_served path db1 resp :
  event_path event = inr path ->
  UpdateItem aws (HitCounterTS.updateCommand env path) db = inr db1 ->
  Invoke aws (HitCounterTS.invokeCommand env event) db1 = inr resp ->
  HitCounterTS.lambdaHandler env aws event context db =
    (ts_return resp, db1,
         (relay_calls event context (HitCounterTS.updateCommand env path)
            (HitCounterTS.invokeCommand env event) db1
            ++ [LoggerInfo "Downstream Response:" (LogResponse resp)])%list).
Proof.
  intros H1 H2 H3. unfold_handler. rewrite H1, H2, H3.
  destruct (ResponsePayload resp) as [payload|]; [|reflexivity].
  now destruct (JSON_parse _).
Qed.
End RunTS.

Section RunJS.
Context {rt : JSRuntime}.
Variables (env : ProcessEnv) (aws : Aws) (event : value) (context : Context).
Variable db : DB.

Lemma js_run_no_event e :
  event_path event = inl e ->
  HitCounterJS.lambdaHandler env aws event context db =
    (inl e, db, prologue event context).
Proof. intros H. unfold_handler. now rewrite H. Qed.

Lemma js_run_store_failed path e :
  event_path event = inr path ->
  UpdateItem aws (HitCounterJS.updateItemParams env path) db = inl e ->
  HitCounterJS.lambdaHandler env aws event context db =
    (inl (DynamoDBClientError e), db,
         (prologue event context
            ++ [DynamoDBUpdateItem (HitCounterJS.updateItemParams env path)])%list).
Proof. intros H1 H2. unfold_handler. now rewrite H1, H2. Qed.

Lemma js_run_invoke_failed path db1 e :
  event_path event = inr path ->
  UpdateItem aws (HitCounterJS.updateItemParams env path) db = inr db1 ->
  Invoke aws (HitCounterJS.invokeParams env event) db1 = inl e ->
  HitCounterJS.lambdaHandler env aws event context db =
    (inl (LambdaClientError e), db1,
         relay_calls event context (HitCounterJS.updateItemParams env path)
           (HitCounterJS.invokeParams env event) db1).
Proof. intros H1 H2 H3. unfold_handler. now rewrite H1, H2, H3. Qed.

Lemma js_run_served path db1 resp :
  event_path event = inr path ->
  UpdateItem aws (HitCounterJS.updateItemParams env path) db = inr db1 ->
  Invoke aws (HitCounterJS.invokeParams env event) db1 = inr resp ->
  HitCounterJS.lambdaHandler env aws event context db =
    (js_return resp, db1,
         (relay_calls event context (HitCounterJS.updateItemParams env path)
            (HitCounterJS.invokeParams env event) db1
            ++ [LoggerInfo "Downstream Response:" (LogResponse resp)])%list).
Proof.
  intros H1 H2 H3. unfold_handler. rewrite H1, H2, H3.
  now destruct (JSON_parse _).
Qed.
End RunJS.

Lemma Buffer_round_trip s : Buffer_toString (Buffer_from_string s) = s.
Proof. apply string_of_list_byte_of_string. Qed.

Lemma before_in_relay_calls event context cmd req seen tail :
  before (DynamoDBUpdateItem cmd) (LambdaInvoke req seen)
    (relay_calls event context cmd req seen ++ tail).
Proof.
  exists (prologue event context),
         [MetricsAddMetric "hit" Count 1; MetricsPublishStoredMetrics], tail.
  unfold relay_calls. now rewrite <- !app_assoc.
Qed.

(** The one Lambda call of a run, when there is one. *)
Lemma in_relay_calls event context cmd req seen tail req' seen' :
  In (LambdaInvoke req' seen')
     (relay_calls event context cmd req seen ++ tail) ->
  ~ In (LambdaInvoke req' seen') tail ->
  req' = req /\ seen' = seen.
Proof.
  unfold relay_calls, prologue. cbn [app In]. intros Hin Htail.
  repeat (destruct Hin as [Heq|Hin]; [try discriminate Heq|]).
  - now injection Heq as -> ->.
  - contradiction.
Qed.


Lemma event_path_member event :
  is_nullish event = false -> event_path event = inr (member event "path").
Proof. now destruct event. Qed.

(** * The reference DynamoDB and the counters *)

Lemma hits_add_hits_same table p n db :
  is_Some (db !! table) ->
  hits (add_hits table p n db) table p = hits db table p + n.
Proof.
  intros [items Hitems]. unfold add_hits, hits. rewrite Hitems.
  rewrite lookup_insert_eq, lookup_insert_eq. reflexivity.
Qed.

Lemma hits_add_hits_other table p n db t q :
  (t, q) <> (table, p) ->
  hits (add_hits table p n db) t q = hits db t q.
Proof.
  intros Hne. unfold add_hits, hits.
  destruct (db !! table) as [items|] eqn:Hitems; [|reflexivity].
  destruct (decide (table = t)) as [->|Htable].
  - rewrite lookup_insert_eq, Hitems.
    rewrite lookup_insert_ne; [reflexivity|]. congruence.
  - rewrite lookup_insert_ne by assumption. reflexivity.
Qed.

Lemma add_hits_keeps_tables table p n db t :
  is_Some (db !! t) -> is_Some (add_hits table p n db !! t).
Proof.
  intros Ht. unfold add_hits.
  destruct (db !! table) as [items|] eqn:Hitems; [|assumption].
  destruct (decide (table = t)) as [->|Hne].
  - rewrite lookup_insert_eq. eauto.
  - rewrite lookup_insert_ne by assumption. assumption.
Qed.

Lemma hits_add_hits_le table p db t q :
  hits db t q <= hits (add_hits table p 1 db) t q.
Proof.
  destruct (decide ((t, q) = (table, p))) as [[= -> ->]|Hne].
  - unfold add_hits. destruct (db !! table) as [items|] eqn:Hitems; [|lia].
    unfold hits. rewrite Hitems, lookup_insert_eq, lookup_insert_eq. cbn. lia.
  - rewrite hits_add_hits_other by assumption. lia.
Qed.

(** What the reference service does with a request it accepts. *)
Lemma DynamoDB_UpdateItem_accepted input db db1 :
  DynamoDB_UpdateItem input db = inr db1 ->
  exists table p d n,
    TableName input = Some table /\
    is_Some (db !! table) /\
    Key input = Obj [("path", Obj [("S", Str p)])] /\
    p <> EmptyString /\
    ExpressionAttributeValues input = Obj [(":incr", Obj [("N", Str d)])] /\
    decimal_value d = Some n /\
    db1 = add_hits table p n db.
Proof.
  unfold DynamoDB_UpdateItem. intros H.
  destruct (TableName input) as [table|]; [|discriminate].
  destruct (db !! table) as [items|] eqn:Hitems; [|discriminate].
  destruct (Key input) as [| | | | |?|[|[k [| | | | |?|[|[ty [| | | |p|?|?]] [|]]]] [|]]];
    try discriminate.
  destruct (String.eqb k "path" && String.eqb ty "S") eqn:Hk; [|discriminate].
  apply andb_true_iff in Hk as [Hk Hty].
  apply String.eqb_eq in Hk as ->. apply String.eqb_eq in Hty as ->.
  cbn [negb] in H.
  destruct (String.eqb p EmptyString) eqn:Hp; [discriminate|].
  apply String.eqb_neq in Hp.
  destruct (String.eqb (UpdateExpression input) "ADD hits :incr"); [|discriminate].
  cbn [negb] in H.
  destruct (ExpressionAttributeValues input)
    as [| | | | |?|[|[ph [| | | | |?|[|[nty [| | | |d|?|?]] [|]]]] [|]]];
    try discriminate.
  destruct (String.eqb ph ":incr" && String.eqb nty "N") eqn:Hph; [|discriminate].
  apply andb_true_iff in Hph as [Hph Hnty].
  apply String.eqb_eq in Hph as ->. apply String.eqb_eq in Hnty as ->.
  destruct (decimal_value d) as [n|] eqn:Hd; [|discriminate].
  injection H as <-.
  exists table, p, d, n. unfold add_hits. rewrite Hitems. eauto 10.
Qed.

Lemma decimal_value_one : decimal_value (Json.print_number 1) = Some 1.
Proof. reflexivity. Qed.

(** The request of the JavaScript relay is accepted for a non-empty
    string path on an existing table. *)
Lemma v2_update_accepted env table p db :
  HITS_TABLE_NAME env = Some table ->
  is_Some (db !! table) ->
  p <> EmptyString ->
  DynamoDB_UpdateItem (HitCounterJS.updateItemParams env (Str p)) db
    = inr (add_hits table p 1 db).
Proof.
  intros Henv [items Hitems] Hp.
  unfold DynamoDB_UpdateItem, add_hits. cbn. rewrite Henv, Hitems.
  apply String.eqb_neq in Hp. rewrite Hp. reflexivity.
Qed.

(** So is the request of the TypeScript relay, once marshalled. *)
Lemma v3_update_accepted env table p db :
  HITS_TABLE_NAME env = Some table ->
  is_Some (db !! table) ->
  p <> EmptyString ->
  @DocumentClient_update Json.runtime (HitCounterTS.updateCommand env (Str p)) db
    = inr (add_hits table p 1 db).
Proof.
  intros Henv [items Hitems] Hp.
  unfold DocumentClient_update, DynamoDB_UpdateItem, add_hits. cbn.
  rewrite Henv, Hitems.
  apply String.eqb_neq in Hp. rewrite Hp. reflexivity.
Qed.

(** Whatever the path, an accepted request of a relay is an increment by
    one of a string key. *)
Lemma v2_update_cases env path db db1 :
  DynamoDB_UpdateItem (HitCounterJS.updateItemParams env path) db = inr db1 ->
  exists table p,
    HITS_TABLE_NAME env = Some table /\ path = Str p /\ db1 = add_hits table p 1 db.
Proof.
  intros H. apply DynamoDB_UpdateItem_accepted in H
    as (table & p & d & n & Ht & _ & Hk & _ & Hv & Hd & ->).
  cbn in Ht, Hk, Hv. injection Hk as ->. injection Hv as <-.
  injection Hd as <-. eauto.
Qed.

Lemma v3_update_cases env path db db1 :
  @DocumentClient_update Json.runtime (HitCounterTS.updateCommand env path) db = inr db1 ->
  exists table p,
    HITS_TABLE_NAME env = Some table /\ path = Str p /\ db1 = add_hits table p 1 db.
Proof.
  unfold DocumentClient_update. cbn [HitCounterTS.updateCommand Key
    ExpressionAttributeValues TableName UpdateExpression marshall_members mapM].
  intros H.
  destruct path as [| |b|n|p|l|l]; cbn in H; try discriminate.
  - apply DynamoDB_UpdateItem_accepted in H
      as (? & ? & ? & ? & _ & _ & Hk & _). discriminate Hk.
  - apply DynamoDB_UpdateItem_accepted in H
      as (? & ? & ? & ? & _ & _ & Hk & _). discriminate Hk.
  - apply DynamoDB_UpdateItem_accepted in H
      as (? & ? & ? & ? & _ & _ & Hk & _). discriminate Hk.
  - apply DynamoDB_UpdateItem_accepted in H
      as (table & q & d & n & Ht & _ & Hk & _ & Hv & Hd & ->).
    cbn in Ht, Hk, Hv. injection Hk as ->. injection Hv as <-.
    injection Hd as <-. eauto.
  - destruct (mapM marshall l); cbn in H; [|discriminate].
    apply DynamoDB_UpdateItem_accepted in H
      as (? & ? & ? & ? & _ & _ & Hk & _). discriminate Hk.
  - destruct (mapM _ l); cbn in H; [|discriminate].
    apply DynamoDB_UpdateItem_accepted in H
      as (? & ? & ? & ? & _ & _ & Hk & _). discriminate Hk.
Qed.

(** The store a relay leaves behind is decided by its one DynamoDB call. *)
Lemma ts_store_after {rt : JSRuntime} env aws event context db :
  store_of (HitCounterTS.lambdaHandler env aws event context db) =
  match event_path event with
  | inr path =>
      match UpdateItem aws (HitCounterTS.updateCommand env path) db with
      | inr db1 => db1
      | inl _ => db
      end
  | inl _ => db
  end.
Proof.
  destruct (event_path event) as [e|path] eqn:Hpath.
  - now rewrite (ts_run_no_event _ _ _ _ _ _ Hpath).
  - destruct (UpdateItem aws (HitCounterTS.updateCommand env path) db)
      as [e|db1] eqn:Hupd.
    + now rewrite (ts_run_store_failed _ _ _ _ _ _ _ Hpath Hupd).
    + destruct (Invoke aws (HitCounterTS.invokeCommand env event) db1)
        as [e|resp] eqn:Hinv.
      * now rewrite (ts_run_invoke_failed _ _ _ _ _ _ _ _ Hpath Hupd Hinv).
      * now rewrite (ts_run_served _ _ _ _ _ _ _ _ Hpath Hupd Hinv).
Qed.

Lemma js_store_after {rt : JSRuntime} env aws event context db :
  store_of (HitCounterJS.lambdaHandler env aws event context db) =
  match event_path event with
  | inr path =>
      match UpdateItem aws (HitCounterJS.updateItemParams env path) db with
      | inr db1 => db1
      | inl _ => db
      end
  | inl _ => db
  end.
Proof.
  destruct (event_path event) as [e|path] eqn:Hpath.
  - now rewrite (js_run_no_event _ _ _ _ _ _ Hpath).
  - destruct (UpdateItem aws (HitCounterJS.updateItemParams env path) db)
      as [e|db1] eqn:Hupd.
    + now rewrite (js_run_store_failed _ _ _ _ _ _ _ Hpath Hupd).
    + destruct (Invoke aws (HitCounterJS.invokeParams env event) db1)
        as [e|resp] eqn:Hinv.
      * now rewrite (js_run_invoke_failed _ _ _ _ _ _ _ _ Hpath Hupd Hinv).
      * now rewrite (js_run_served _ _ _ _ _ _ _ _ Hpath Hupd Hinv).
Qed.

(** ** Counting over a sequence of calls

    The three facts about [handle_all] need only two properties of one
    call; they are proved once, for any handler that has them. *)
Section Counting.
Variable h : Handler.
Variable table : string.

Hypothesis step_cases :
  forall event context db,
    store_of (h event context db) = db \/
    exists p, event_path event = inr (Str p) /\
              store_of (h event context db) = add_hits table p 1 db.

Lemma handle_all_keeps_tables events context db t :
  is_Some (db !! t) -> is_Some (handle_all h events context db !! t).
Proof.
  revert db. induction events as [|event rest IH]; intros db Ht; [exact Ht|].
  cbn [handle_all]. apply IH.
  destruct (step_cases event context db) as [->|(p & _ & ->)]; [exact Ht|].
  now apply add_hits_keeps_tables.
Qed.

Lemma handle_all_never_decreases events context db t q :
  hits db t q <= hits (handle_all h events context db) t q.
Proof.
  revert db. induction events as [|event rest IH]; intros db; [cbn; lia|].
  cbn [handle_all]. etransitivity; [|apply IH].
  destruct (step_cases event context db) as [->|(p & _ & ->)]; [lia|].
  apply hits_add_hits_le.
Qed.

Lemma handle_all_other_paths events context db p t q :
  Forall (has_path p) events ->
  (t, q) <> (table, p) ->
  hits (handle_all h events context db) t q = hits db t q.
Proof.
  intros Hall Hne. revert db.
  induction Hall as [|event rest Hev _ IH]; intros db; [reflexivity|].
  cbn [handle_all]. rewrite IH.
  destruct (step_cases event context db) as [->|(p' & Hp' & ->)]; [reflexivity|].
  unfold has_path in Hev. rewrite Hev in Hp'. injection Hp' as <-.
  now apply hits_add_hits_other.
Qed.

Hypothesis step_accepted :
  forall event context db p,
    is_Some (db !! table) -> p <> EmptyString -> has_path p event ->
    store_of (h event context db) = add_hits table p 1 db.

Lemma path_is_true p event : path_is p event = true <-> has_path p event.
Proof.
  unfold path_is, has_path. split.
  - destruct (event_path event) as [e|[| | | |q| |]]; try discriminate.
    intros Heq. apply String.eqb_eq in Heq. now subst.
  - intros ->. apply String.eqb_refl.
Qed.

Lemma handle_all_interleaved events context db p :
  is_Some (db !! table) -> p <> EmptyString ->
  hits (handle_all h events context db) table p =
    hits db table p + Z.of_nat (length (List.filter (path_is p) events)).
Proof.
  intros Ht Hp. revert db Ht.
  induction events as [|event rest IH]; intros db Ht; [cbn; lia|].
  cbn [handle_all List.filter].
  destruct (path_is p event) eqn:Hev.
  - apply path_is_true in Hev.
    rewrite (step_accepted event context db p Ht Hp Hev).
    rewrite IH by now apply add_hits_keeps_tables.
    rewrite hits_add_hits_same by assumption. cbn [length]. lia.
  - destruct (step_cases event context db) as [Heq|(p' & Hp' & Heq)]; rewrite Heq.
    + now apply IH.
    + rewrite IH by now apply add_hits_keeps_tables.
      rewrite hits_add_hits_other; [reflexivity|].
      intros [= <-]. unfold path_is in Hev. rewrite Hp' in Hev.
      now rewrite String.eqb_refl in Hev.
Qed.

Lemma handle_all_same_path events context db p :
  is_Some (db !! table) -> p <> EmptyString ->
  Forall (has_path p) events ->
  hits (handle_all h events context db) table p =
    hits db table p + Z.of_nat (length events).
Proof.
  intros Ht Hp Hall. rewrite handle_all_interleaved by assumption.
  f_equal. f_equal. f_equal.
  induction Hall as [|event rest Hev _ IH]; [reflexivity|].
  cbn [List.filter]. apply path_is_true in Hev. rewrite Hev. cbn. now rewrite IH.
Qed.
End Counting.

(** One call of each relay in front of the reference DynamoDB. *)
Lemma v3_step_cases {rt : JSRuntime} env invoke event context db :
  store_of (HitCounterTS.lambdaHandler env (v3_clients invoke) event context db) = db \/
  exists p,
    event_path event = inr (Str p) /\
    store_of (HitCounterTS.lambdaHandler env (v3_clients invoke) event context db)
      = add_hits (default EmptyString (HITS_TABLE_NAME env)) p 1 db.
Proof.
  rewrite ts_store_after.
  destruct (event_path event) as [e|path]; [now left|].
  destruct (UpdateItem _ _ db) as [e|db1] eqn:Hupd; [now left|].
  apply v3_update_cases in Hupd as (table & p & Ht & -> & ->).
  right. exists p. now rewrite Ht.
Qed.

Lemma v2_step_cases {rt : JSRuntime} env invoke event context db :
  store_of (HitCounterJS.lambdaHandler env (v2_clients invoke) event context db) = db \/
  exists p,
    event_path event = inr (Str p) /\
    store_of (HitCounterJS.lambdaHandler env (v2_clients invoke) event context db)
      = add_hits (default EmptyString (HITS_TABLE_NAME env)) p 1 db.
Proof.
  rewrite js_store_after.
  destruct (event_path event) as [e|path]; [now left|].
  destruct (UpdateItem _ _ db) as [e|db1] eqn:Hupd; [now left|].
  apply v2_update_cases in Hupd as (table & p & Ht & -> & ->).
  right. exists p. now rewrite Ht.
Qed.

Lemma v3_step_accepted {rt : JSRuntime} env invoke table event context db p :
  HITS_TABLE_NAME env = Some table ->
  is_Some (db !! table) -> p <> EmptyString -> has_path p event ->
  store_of (HitCounterTS.lambdaHandler env (v3_clients invoke) event context db)
    = add_hits table p 1 db.
Proof.
  intros Henv Ht Hp Hev. rewrite ts_store_after, Hev. cbn [v3_clients UpdateItem].
  now rewrite (v3_update_accepted env table p db Henv Ht Hp).
Qed.

Lemma v2_step_accepted {rt : JSRuntime} env invoke table event context db p :
  HITS_TABLE_NAME env = Some table ->
  is_Some (db !! table) -> p <> EmptyString -> has_path p event ->
  store_of (HitCounterJS.lambdaHandler env (v2_clients invoke) event context db)
    = add_hits table p 1 db.
Proof.
  intros Henv Ht Hp Hev. rewrite js_store_after, Hev. cbn [v2_clients UpdateItem].
  now rewrite (v2_update_accepted env table p db Henv Ht Hp).
Qed.

(** * The claims *)

(** C1.  When the increment is refused (the promise of the DynamoDB call
    is rejected), the relay fails with that very rejection, which is the
    failure class [CounterStoreError]; the Lambda service is never called
    in that run, and the relay leaves the store as it found it.  Both the
    TypeScript and the JavaScript relay. *)
Theorem C1_store_failure_fails_request_without_invoking :
  forall (rt : JSRuntime) (env : ProcessEnv) (aws : Aws) (event : value)
         (context : Context) (db : DB) (path : value) (e : SdkError),
    event_path event = inr path ->
    (UpdateItem aws (HitCounterTS.updateCommand env path) db = inl e ->
     let o := HitCounterTS.lambdaHandler env aws event context db in
     result_of o = inl (DynamoDBClientError e) /\
     (forall err, result_of o = inl err -> error_kind err = CounterStoreError) /\
     lambda_calls (effects_of o) = [] /\
     (forall req seen, ~ In (LambdaInvoke req seen) (effects_of o)) /\
     store_of o = db)
    /\
    (UpdateItem aws (HitCounterJS.updateItemParams env path) db = inl e ->
     let o := HitCounterJS.lambdaHandler env aws event context db in
     result_of o = inl (DynamoDBClientError e) /\
     (forall err, result_of o = inl err -> error_kind err = CounterStoreError) /\
     lambda_calls (effects_of o) = [] /\
     (forall req seen, ~ In (LambdaInvoke req seen) (effects_of o)) /\
     store_of o = db).
Proof.
  intros rt env aws event context db path e Hpath. split; intros Hfail o; subst o.
  - rewrite (ts_run_store_failed _ _ _ _ _ _ _ Hpath Hfail).
    cbn [result_of store_of effects_of fst snd].
    repeat split; try reflexivity.
    + intros err [= <-]. reflexivity.
    + intros req seen Hin. cbn in Hin. intuition discriminate.
  - rewrite (js_run_store_failed _ _ _ _ _ _ _ Hpath Hfail).
    cbn [result_of store_of effects_of fst snd].
    repeat split; try reflexivity.
    + intros err [= <-]. reflexivity.
    + intros req seen Hin. cbn in Hin. intuition discriminate.
Qed.

Lemma C1_store_down_witness :
  (result_of (Stack.ts_run (Stack.aws_store_down Stack.aws_v3) Stack.get_foo)
     = inl (DynamoDBClientError ServiceUnavailable) /\
   lambda_calls (effects_of (Stack.ts_run (Stack.aws_store_down Stack.aws_v3) Stack.get_foo))
     = []) /\
  (result_of (Stack.js_run (Stack.aws_store_down Stack.aws_v2) Stack.get_foo)
     = inl (DynamoDBClientError ServiceUnavailable) /\
   lambda_calls (effects_of (Stack.js_run (Stack.aws_store_down Stack.aws_v2) Stack.get_foo))
     = []).
Proof.
  split.
  - destruct (C1_store_failure_fails_request_without_invoking Json.runtime Stack.env
                (Stack.aws_store_down Stack.aws_v3) Stack.get_foo Stack.context
                Stack.db0 (Str "/foo") ServiceUnavailable eq_refl) as [Hts _].
    destruct (Hts eq_refl) as (H1 & _ & H3 & _). split; [exact H1|exact H3].
  - destruct (C1_store_failure_fails_request_without_invoking Json.runtime Stack.env
                (Stack.aws_store_down Stack.aws_v2) Stack.get_foo Stack.context
                Stack.db0 (Str "/foo") ServiceUnavailable eq_refl) as [_ Hjs].
    destruct (Hjs eq_refl) as (H1 & _ & H3 & _). split; [exact H1|exact H3].
Defined.

(** C2.  When the increment succeeded, leaving the store in state [db1],
    and the promise of the Lambda call is then rejected, the relay fails
    with that rejection, which is the failure class
    [DownstreamInvocationError]; the store it leaves is [db1]: the
    increment is kept, and no second DynamoDB call undoes it.  In front of
    the reference DynamoDB the counter of the request's path reads one more
    than before the call. *)
Theorem C2_invocation_failure_keeps_the_increment :
  forall (rt : JSRuntime) (env : ProcessEnv) (aws : Aws) (event : value)
         (context : Context) (db db1 : DB) (path : value) (e : SdkError),
    event_path event = inr path ->
    (UpdateItem aws (HitCounterTS.updateCommand env path) db = inr db1 ->
     Invoke aws (HitCounterTS.invokeCommand env event) db1 = inl e ->
     let o := HitCounterTS.lambdaHandler env aws event context db in
     result_of o = inl (LambdaClientError e) /\
     (forall err, result_of o = inl err -> error_kind err = DownstreamInvocationError) /\
     store_of o = db1 /\
     dynamodb_calls (effects_of o) =
       [DynamoDBUpdateItem (HitCounterTS.updateCommand env path)])
    /\
    (UpdateItem aws (HitCounterJS.updateItemParams env path) db = inr db1 ->
     Invoke aws (HitCounterJS.invokeParams env event) db1 = inl e ->
     let o := HitCounterJS.lambdaHandler env aws event context db in
     result_of o = inl (LambdaClientError e) /\
     (forall err, result_of o = inl err -> error_kind err = DownstreamInvocationError) /\
     store_of o = db1 /\
     dynamodb_calls (effects_of o) =
       [DynamoDBUpdateItem (HitCounterJS.updateItemParams env path)])
    /\
    (forall (invoke : InvocationRequest -> DB -> SdkError + InvocationResponse)
            (table p : string),
        HITS_TABLE_NAME env = Some table ->
        is_Some (db !! table) ->
        p <> EmptyString ->
        path = Str p ->
        (invoke (HitCounterTS.invokeCommand env event) (add_hits table p 1 db) = inl e ->
         let o := HitCounterTS.lambdaHandler env (v3_clients invoke) event context db in
         result_of o = inl (LambdaClientError e) /\
         hits (store_of o) table p = hits db table p + 1) /\
        (invoke (HitCounterJS.invokeParams env event) (add_hits table p 1 db) = inl e ->
         let o := HitCounterJS.lambdaHandler env (v2_clients invoke) event context db in
         result_of o = inl (LambdaClientError e) /\
         hits (store_of o) table p = hits db table p + 1)).
Proof.
  intros rt env aws event context db db1 path e Hpath.
  split; [|split]; [intros Hupd Hinv o; subst o..|].
  - rewrite (ts_run_invoke_failed _ _ _ _ _ _ _ _ Hpath Hupd Hinv).
    cbn [result_of store_of effects_of fst snd].
    repeat split; try reflexivity.
    intros err [= <-]. reflexivity.
  - rewrite (js_run_invoke_failed _ _ _ _ _ _ _ _ Hpath Hupd Hinv).
    cbn [result_of store_of effects_of fst snd].
    repeat split; try reflexivity.
    intros err [= <-]. reflexivity.
  - intros invoke table p Henv Ht Hp ->. split; intros Hinv o; subst o.
    + rewrite (ts_run_invoke_failed env (v3_clients invoke) _ _ _ _ _ _ Hpath
                 (v3_update_accepted env table p db Henv Ht Hp) Hinv).
      cbn [result_of store_of fst snd]. split; [reflexivity|].
      now apply hits_add_hits_same.
    + rewrite (js_run_invoke_failed env (v2_clients invoke) _ _ _ _ _ _ Hpath
                 (v2_update_accepted env table p db Henv Ht Hp) Hinv).
      cbn [result_of store_of fst snd]. split; [reflexivity|].
      now apply hits_add_hits_same.
Qed.

Lemma C2_lambda_down_witness :
  (result_of (Stack.ts_run (Stack.aws_lambda_down Stack.aws_v3) Stack.get_foo)
     = inl (LambdaClientError ServiceUnavailable) /\
   store_of (Stack.ts_run (Stack.aws_lambda_down Stack.aws_v3) Stack.get_foo) = Stack.db1) /\
  (result_of (Stack.js_run (Stack.aws_lambda_down Stack.aws_v2) Stack.get_foo)
     = inl (LambdaClientError ServiceUnavailable) /\
   store_of (Stack.js_run (Stack.aws_lambda_down Stack.aws_v2) Stack.get_foo) = Stack.db1) /\
  hits (store_of (Stack.ts_run (Stack.aws_lambda_down Stack.aws_v3) Stack.get_foo))
       "Hits" "/foo"
    = hits Stack.db0 "Hits" "/foo" + 1.
Proof.
  split; [|split].
  - destruct (C2_invocation_failure_keeps_the_increment Json.runtime Stack.env
                (Stack.aws_lambda_down Stack.aws_v3) Stack.get_foo Stack.context
                Stack.db0 Stack.db1 (Str "/foo") ServiceUnavailable eq_refl) as [Hts _].
    destruct (Hts ltac:(vm_compute; reflexivity) eq_refl) as (H1 & _ & H3 & _).
    split; [exact H1|exact H3].
  - destruct (C2_invocation_failure_keeps_the_increment Json.runtime Stack.env
                (Stack.aws_lambda_down Stack.aws_v2) Stack.get_foo Stack.context
                Stack.db0 Stack.db1 (Str "/foo") ServiceUnavailable eq_refl) as [_ [Hjs _]].
    destruct (Hjs ltac:(vm_compute; reflexivity) eq_refl) as (H1 & _ & H3 & _).
    split; [exact H1|exact H3].
  - destruct (C2_invocation_failure_keeps_the_increment Json.runtime Stack.env
                (Stack.aws_lambda_down Stack.aws_v3) Stack.get_foo Stack.context
                Stack.db0 Stack.db1 (Str "/foo") ServiceUnavailable eq_refl) as [_ [_ Href]].
    destruct (Href (fun _ _ => inl ServiceUnavailable) "Hits" "/foo" eq_refl
                ltac:(exists ∅; vm_compute; reflexivity) ltac:(discriminate) eq_refl)
      as [Hts _].
    exact (proj2 (Hts eq_refl)).
Defined.

(** C3, as stated, fails on the TypeScript relay: a served response that
    carries no payload takes the [else] branch of [if (resp.Payload)] and
    the relay returns the empty object instead of failing. *)
Lemma C3_absent_payload_returns_empty_object :
  Invoke (Stack.aws_answering Stack.aws_v3 None) (Stack.ts_request Stack.get_foo) Stack.db1
    = inr Stack.no_payload /\
  @unparseable Json.runtime Stack.no_payload /\
  result_of (Stack.ts_run (Stack.aws_answering Stack.aws_v3 None) Stack.get_foo)
    = inr (Obj []) /\
  ~ malformed_response_always_fails.
Proof.
  split; [reflexivity|]. split; [exact I|]. split; [vm_compute; reflexivity|].
  intros Hclaim.
  destruct (Hclaim Json.runtime Stack.env (Stack.aws_answering Stack.aws_v3 None)
              Stack.get_foo Stack.context Stack.db0 Stack.db1 (Str "/foo")
              Stack.no_payload eq_refl ltac:(vm_compute; reflexivity) eq_refl I)
    as (e & He & _).
  vm_compute in He. discriminate He.
Qed.

(** C3, amended.  After a successful increment and a served invocation:
    a payload that [JSON.parse] refuses makes either relay fail with the
    [SyntaxError] of the parser, the failure class
    [MalformedDownstreamResponse], and no response is returned; a response
    without payload makes the JavaScript relay fail the same way, and makes
    the TypeScript relay return the empty object. *)
Theorem C3_unparseable_payload_fails_absent_payload_by_variant :
  forall (rt : JSRuntime) (env : ProcessEnv) (aws : Aws) (event : value)
         (context : Context) (db db1 : DB) (path : value)
         (resp : InvocationResponse),
    event_path event = inr path ->
    (UpdateItem aws (HitCounterTS.updateCommand env path) db = inr db1 ->
     Invoke aws (HitCounterTS.invokeCommand env event) db1 = inr resp ->
     let o := HitCounterTS.lambdaHandler env aws event context db in
     (forall payload,
         ResponsePayload resp = Some payload ->
         JSON_parse (Buffer_toString (Buffer_from_bytes payload)) = None ->
         result_of o = inl SyntaxError /\
         error_kind SyntaxError = MalformedDownstreamResponse) /\
     (ResponsePayload resp = None -> result_of o = inr (Obj [])))
    /\
    (UpdateItem aws (HitCounterJS.updateItemParams env path) db = inr db1 ->
     Invoke aws (HitCounterJS.invokeParams env event) db1 = inr resp ->
     let o := HitCounterJS.lambdaHandler env aws event context db in
     (JSON_parse (HitCounterJS.Payload_toString (ResponsePayload resp)) = None ->
      result_of o = inl SyntaxError /\
      error_kind SyntaxError = MalformedDownstreamResponse) /\
     (ResponsePayload resp = None -> result_of o = inl SyntaxError)).
Proof.
  intros rt env aws event context db db1 path resp Hpath.
  split; intros Hupd Hinv o; subst o.
  - rewrite (ts_run_served _ _ _ _ _ _ _ _ Hpath Hupd Hinv).
    cbn [result_of fst]. unfold ts_return. split.
    + intros payload Hsome Hparse. rewrite Hsome, Hparse. now split.
    + intros Hnone. now rewrite Hnone.
  - rewrite (js_run_served _ _ _ _ _ _ _ _ Hpath Hupd Hinv).
    cbn [result_of fst]. unfold js_return. split.
    + intros Hparse. rewrite Hparse. now split.
    + intros Hnone. rewrite Hnone. cbn [HitCounterJS.Payload_toString].
      now rewrite JSON_parse_undefined.
Qed.

Lemma C3_garbage_payload_witness :
  result_of (Stack.ts_run (Stack.aws_answering Stack.aws_v3 (Some Stack.bad_gateway))
               Stack.get_foo) = inl SyntaxError /\
  result_of (Stack.js_run (Stack.aws_answering Stack.aws_v2 None) Stack.get_foo)
    = inl SyntaxError.
Proof.
  split.
  - destruct (C3_unparseable_payload_fails_absent_payload_by_variant Json.runtime
                Stack.env (Stack.aws_answering Stack.aws_v3 (Some Stack.bad_gateway))
                Stack.get_foo Stack.context Stack.db0 Stack.db1 (Str "/foo")
                {| StatusCode := 200; FunctionError := None;
                   ResponsePayload := Some Stack.bad_gateway |}
                eq_refl) as [Hts _].
    destruct (Hts ltac:(vm_compute; reflexivity) eq_refl) as [Hbad _].
    exact (proj1 (Hbad _ eq_refl ltac:(vm_compute; reflexivity))).
  - destruct (C3_unparseable_payload_fails_absent_payload_by_variant Json.runtime
                Stack.env (Stack.aws_answering Stack.aws_v2 None)
                Stack.get_foo Stack.context Stack.db0 Stack.db1 (Str "/foo")
                Stack.no_payload eq_refl) as [_ Hjs].
    destruct (Hjs ltac:(vm_compute; reflexivity) eq_refl) as [_ Hnone].
    exact (Hnone eq_refl).
Defined.

(** C4.  After a successful increment and a served invocation whose
    payload is the JSON text of [v], the relay returns [v] itself: nothing
    is added, removed or rewritten. *)
Theorem C4_downstream_response_is_returned_unchanged :
  forall (rt : JSRuntime) (env : ProcessEnv) (aws : Aws) (event : value)
         (context : Context) (db db1 : DB) (path : value)
         (resp : InvocationResponse) (v : value),
    event_path event = inr path ->
    (UpdateItem aws (HitCounterTS.updateCommand env path) db = inr db1 ->
     Invoke aws (HitCounterTS.invokeCommand env event) db1 = inr resp ->
     forall payload,
       ResponsePayload resp = Some payload ->
       JSON_parse (Buffer_toString (Buffer_from_bytes payload)) = Some v ->
       result_of (HitCounterTS.lambdaHandler env aws event context db) = inr v)
    /\
    (UpdateItem aws (HitCounterJS.updateItemParams env path) db = inr db1 ->
     Invoke aws (HitCounterJS.invokeParams env event) db1 = inr resp ->
     JSON_parse (HitCounterJS.Payload_toString (ResponsePayload resp)) = Some v ->
     result_of (HitCounterJS.lambdaHandler env aws event context db) = inr v).
Proof.
  intros rt env aws event context db db1 path resp v Hpath. split.
  - intros Hupd Hinv payload Hsome Hparse.
    rewrite (ts_run_served _ _ _ _ _ _ _ _ Hpath Hupd Hinv).
    cbn [result_of fst]. unfold ts_return. now rewrite Hsome, Hparse.
  - intros Hupd Hinv Hparse.
    rewrite (js_run_served _ _ _ _ _ _ _ _ Hpath Hupd Hinv).
    cbn [result_of fst]. unfold js_return. now rewrite Hparse.
Qed.

Lemma C4_hello_foo_witness :
  result_of (Stack.ts_run (Stack.aws_answering Stack.aws_v3 (Some Stack.hello_foo_payload))
               (Obj [("path", Str "/foo")])) = inr Stack.hello_foo /\
  result_of (Stack.js_run (Stack.aws_answering Stack.aws_v2 (Some Stack.hello_foo_payload))
               (Obj [("path", Str "/foo")])) = inr Stack.hello_foo.
Proof.
  split.
  - refine (proj1 (C4_downstream_response_is_returned_unchanged Json.runtime Stack.env
              (Stack.aws_answering Stack.aws_v3 (Some Stack.hello_foo_payload))
              (Obj [("path", Str "/foo")]) Stack.context Stack.db0 Stack.db1
              (Str "/foo")
              {| StatusCode := 200; FunctionError := None;
                 ResponsePayload := Some Stack.hello_foo_payload |}
              Stack.hello_foo eq_refl) _ eq_refl Stack.hello_foo_payload eq_refl _);
      vm_compute; reflexivity.
  - refine (proj2 (C4_downstream_response_is_returned_unchanged Json.runtime Stack.env
              (Stack.aws_answering Stack.aws_v2 (Some Stack.hello_foo_payload))
              (Obj [("path", Str "/foo")]) Stack.context Stack.db0 Stack.db1
              (Str "/foo")
              {| StatusCode := 200; FunctionError := None;
                 ResponsePayload := Some Stack.hello_foo_payload |}
              Stack.hello_foo eq_refl) _ eq_refl _);
      vm_compute; reflexivity.
Defined.

(** C5.  A call on a request, which the specification requires to carry a
    [path] (here: any event whose [event.path] can be read, [path] being
    what is read), makes exactly one DynamoDB call: an [UpdateItem] on
    table [HITS_TABLE_NAME] whose key is the value of [event.path] as it
    is, with the single action [ADD hits :incr] and [:incr] bound to 1.
    Nothing is read first, the call is not repeated when it fails, and the
    store the relay leaves is the one this call produced (or the untouched
    one, when it failed). *)
Theorem C5_exactly_one_add_one_keyed_by_path :
  forall (rt : JSRuntime) (env : ProcessEnv) (aws : Aws) (event : value)
         (context : Context) (db : DB) (path : value),
    event_path event = inr path ->
    (let o := HitCounterTS.lambdaHandler env aws event context db in
     let cmd := {| TableName := HITS_TABLE_NAME env;
                   Key := Obj [("path", path)];
                   UpdateExpression := "ADD hits :incr";
                   ExpressionAttributeValues := Obj [(":incr", Num 1)] |} in
     dynamodb_calls (effects_of o) = [DynamoDBUpdateItem cmd] /\
     store_of o = match UpdateItem aws cmd db with
                  | inr db1 => db1
                  | inl _ => db
                  end)
    /\
    (let o := HitCounterJS.lambdaHandler env aws event context db in
     let cmd := {| TableName := HITS_TABLE_NAME env;
                   Key := Obj [("path", Obj [("S", path)])];
                   UpdateExpression := "ADD hits :incr";
                   ExpressionAttributeValues := Obj [(":incr", Obj [("N", Str "1")])] |} in
     dynamodb_calls (effects_of o) = [DynamoDBUpdateItem cmd] /\
     store_of o = match UpdateItem aws cmd db with
                  | inr db1 => db1
                  | inl _ => db
                  end).
Proof.
  intros rt env aws event context db path Hpath. split; intros o cmd; subst o.
  - change cmd with (HitCounterTS.updateCommand env path). clear cmd.
    destruct (UpdateItem aws (HitCounterTS.updateCommand env path) db)
      as [e|db1] eqn:Hupd.
    + rewrite (ts_run_store_failed _ _ _ _ _ _ _ Hpath Hupd). now split.
    + destruct (Invoke aws (HitCounterTS.invokeCommand env event) db1)
        as [e|resp] eqn:Hinv.
      * rewrite (ts_run_invoke_failed _ _ _ _ _ _ _ _ Hpath Hupd Hinv). now split.
      * rewrite (ts_run_served _ _ _ _ _ _ _ _ Hpath Hupd Hinv). now split.
  - change cmd with (HitCounterJS.updateItemParams env path). clear cmd.
    destruct (UpdateItem aws (HitCounterJS.updateItemParams env path) db)
      as [e|db1] eqn:Hupd.
    + rewrite (js_run_store_failed _ _ _ _ _ _ _ Hpath Hupd). now split.
    + destruct (Invoke aws (HitCounterJS.invokeParams env event) db1)
        as [e|resp] eqn:Hinv.
      * rewrite (js_run_invoke_failed _ _ _ _ _ _ _ _ Hpath Hupd Hinv). now split.
      * rewrite (js_run_served _ _ _ _ _ _ _ _ Hpath Hupd Hinv). now split.
Qed.

Lemma C5_get_foo_witness :
  dynamodb_calls (effects_of (Stack.ts_run Stack.aws_v3 Stack.get_foo)) =
    [DynamoDBUpdateItem
       {| TableName := Some "Hits";
          Key := Obj [("path", Str "/foo")];
          UpdateExpression := "ADD hits :incr";
          ExpressionAttributeValues := Obj [(":incr", Num 1)] |}].
Proof.
  exact (proj1 (proj1 (C5_exactly_one_add_one_keyed_by_path Json.runtime Stack.env
                  Stack.aws_v3 Stack.get_foo Stack.context Stack.db0 (Str "/foo") eq_refl))).
Defined.

(** C6.  In front of a DynamoDB that holds the table, whatever the Lambda
    service answers (so also when it always succeeds): [N] calls, one after
    the other, with the non-empty string [P] as path raise the counter of
    [P] by exactly [N] and leave every other counter as it was; mixed with
    calls for other paths in any order, the calls for [P] still raise its
    counter by their number; and no sequence of calls, with any events,
    ever lowers a counter. *)
Theorem C6_n_calls_raise_the_counter_by_n :
  forall (rt : JSRuntime) (env : ProcessEnv)
         (invoke : InvocationRequest -> DB -> SdkError + InvocationResponse)
         (context : Context) (db : DB),
    let ts := HitCounterTS.lambdaHandler env (v3_clients invoke) in
    let js := HitCounterJS.lambdaHandler env (v2_clients invoke) in
    (forall (table P : string) (events : list value),
        HITS_TABLE_NAME env = Some table ->
        is_Some (db !! table) ->
        P <> EmptyString ->
        Forall (has_path P) events ->
        (hits (handle_all ts events context db) table P
           = hits db table P + Z.of_nat (length events) /\
         hits (handle_all js events context db) table P
           = hits db table P + Z.of_nat (length events)) /\
        (forall t q, (t, q) <> (table, P) ->
           hits (handle_all ts events context db) t q = hits db t q /\
           hits (handle_all js events context db) t q = hits db t q))
    /\
    (forall (table P : string) (events : list value),
        HITS_TABLE_NAME env = Some table ->
        is_Some (db !! table) ->
        P <> EmptyString ->
        hits (handle_all ts events context db) table P
          = hits db table P + Z.of_nat (length (List.filter (path_is P) events)) /\
        hits (handle_all js events context db) table P
          = hits db table P + Z.of_nat (length (List.filter (path_is P) events)))
    /\
    (forall (events : list value) (t q : string),
        hits db t q <= hits (handle_all ts events context db) t q /\
        hits db t q <= hits (handle_all js events context db) t q).
Proof.
  intros rt env invoke context db ts js. split; [|split].
  - intros table P events Henv Ht HP Hall.
    assert (Hdef : default EmptyString (HITS_TABLE_NAME env) = table)
      by now rewrite Henv.
    split; [split|intros t q Hne; split].
    + apply (handle_all_same_path ts table).
      * intros ev c d. rewrite <- Hdef. apply v3_step_cases.
      * intros ev c d p. now apply v3_step_accepted.
      * assumption.
      * assumption.
      * assumption.
    + apply (handle_all_same_path js table).
      * intros ev c d. rewrite <- Hdef. apply v2_step_cases.
      * intros ev c d p. now apply v2_step_accepted.
      * assumption.
      * assumption.
      * assumption.
    + apply (handle_all_other_paths ts table) with (p := P); try assumption.
      intros ev c d. rewrite <- Hdef. apply v3_step_cases.
    + apply (handle_all_other_paths js table) with (p := P); try assumption.
      intros ev c d. rewrite <- Hdef. apply v2_step_cases.
  - intros table P events Henv Ht HP.
    assert (Hdef : default EmptyString (HITS_TABLE_NAME env) = table)
      by now rewrite Henv.
    split.
    + apply (handle_all_interleaved ts table); try assumption.
      * intros ev c d. rewrite <- Hdef. apply v3_step_cases.
      * intros ev c d p. now apply v3_step_accepted.
    + apply (handle_all_interleaved js table); try assumption.
      * intros ev c d. rewrite <- Hdef. apply v2_step_cases.
      * intros ev c d p. now apply v2_step_accepted.
  - intros events t q. split.
    + apply (handle_all_never_decreases ts (default EmptyString (HITS_TABLE_NAME env))).
      intros ev c d. apply v3_step_cases.
    + apply (handle_all_never_decreases js (default EmptyString (HITS_TABLE_NAME env))).
      intros ev c d. apply v2_step_cases.
Qed.

Lemma C6_three_hits_witness :
  hits Stack.after_three_hits "Hits" "/foo" = hits Stack.db0 "Hits" "/foo" + Z.of_nat 3 /\
  hits Stack.after_three_hits "Hits" "/foo" = 3 /\
  hits Stack.after_three_hits "Hits" "/bar" = 0.
Proof.
  split; [|split; vm_compute; reflexivity].
  refine (proj1 (proj1 (proj1 (C6_n_calls_raise_the_counter_by_n Json.runtime Stack.env
            (Invoke Stack.aws_v3) Stack.context Stack.db0)
            "Hits" "/foo" Stack.three_hits eq_refl _ _ _))).
  - exists ∅. vm_compute. reflexivity.
  - discriminate.
  - repeat constructor.
Defined.

(** C7.  Within one call: a Lambda request is only ever issued after the
    DynamoDB call, and after that call has succeeded; the store the Lambda
    service is shown is the one the increment produced.  And a call that
    returns a value has issued its Lambda request and got the response
    from which that value is computed. *)
Theorem C7_increment_completes_before_invocation_is_issued :
  forall (rt : JSRuntime) (env : ProcessEnv) (aws : Aws) (event : value)
         (context : Context) (db : DB),
    (let o := HitCounterTS.lambdaHandler env aws event context db in
     (forall req seen,
         In (LambdaInvoke req seen) (effects_of o) ->
         exists path,
           event_path event = inr path /\
           UpdateItem aws (HitCounterTS.updateCommand env path) db = inr seen /\
           before (DynamoDBUpdateItem (HitCounterTS.updateCommand env path))
                  (LambdaInvoke req seen) (effects_of o) /\
           store_of o = seen) /\
     (forall v,
         result_of o = inr v ->
         exists req resp,
           Invoke aws req (store_of o) = inr resp /\
           ts_return resp = inr v /\
           before (LambdaInvoke req (store_of o))
                  (LoggerInfo "Downstream Response:" (LogResponse resp))
                  (effects_of o)))
    /\
    (let o := HitCounterJS.lambdaHandler env aws event context db in
     (forall req seen,
         In (LambdaInvoke req seen) (effects_of o) ->
         exists path,
           event_path event = inr path /\
           UpdateItem aws (HitCounterJS.updateItemParams env path) db = inr seen /\
           before (DynamoDBUpdateItem (HitCounterJS.updateItemParams env path))
                  (LambdaInvoke req seen) (effects_of o) /\
           store_of o = seen) /\
     (forall v,
         result_of o = inr v ->
         exists req resp,
           Invoke aws req (store_of o) = inr resp /\
           js_return resp = inr v /\
           before (LambdaInvoke req (store_of o))
                  (LoggerInfo "Downstream Response:" (LogResponse resp))
                  (effects_of o))).
Proof.
  intros rt env aws event context db. split; intros o; subst o.
  - destruct (event_path event) as [e|path] eqn:Hpath.
    { rewrite (ts_run_no_event _ _ _ _ _ _ Hpath). split.
      - intros req seen Hin. cbn in Hin. intuition discriminate.
      - intros v [=]. }
    destruct (UpdateItem aws (HitCounterTS.updateCommand env path) db)
      as [e|db1] eqn:Hupd.
    { rewrite (ts_run_store_failed _ _ _ _ _ _ _ Hpath Hupd). split.
      - intros req seen Hin. cbn in Hin. intuition discriminate.
      - intros v [=]. }
    destruct (Invoke aws (HitCounterTS.invokeCommand env event) db1)
      as [e|resp] eqn:Hinv.
    + rewrite (ts_run_invoke_failed _ _ _ _ _ _ _ _ Hpath Hupd Hinv).
      cbn [result_of store_of effects_of fst snd]. split.
      * intros req seen Hin. rewrite <- (app_nil_r (relay_calls _ _ _ _ _)) in Hin |- *.
        apply in_relay_calls in Hin as [-> ->]; [|now intros []].
        exists path. repeat split; try assumption.
        apply before_in_relay_calls.
      * intros v [=].
    + rewrite (ts_run_served _ _ _ _ _ _ _ _ Hpath Hupd Hinv).
      cbn [result_of store_of effects_of fst snd]. split.
      * intros req seen Hin.
        apply in_relay_calls in Hin as [-> ->];
          [|cbn; intuition discriminate].
        exists path. repeat split; try assumption.
        apply before_in_relay_calls.
      * intros v Hv. exists (HitCounterTS.invokeCommand env event), resp.
        repeat split; try assumption.
        exists (prologue event context ++
                [DynamoDBUpdateItem (HitCounterTS.updateCommand env path);
                 MetricsAddMetric "hit" Count 1; MetricsPublishStoredMetrics])%list,
               [], [].
        unfold relay_calls. now rewrite <- !app_assoc.
  - destruct (event_path event) as [e|path] eqn:Hpath.
    { rewrite (js_run_no_event _ _ _ _ _ _ Hpath). split.
      - intros req seen Hin. cbn in Hin. intuition discriminate.
      - intros v [=]. }
    destruct (UpdateItem aws (HitCounterJS.updateItemParams env path) db)
      as [e|db1] eqn:Hupd.
    { rewrite (js_run_store_failed _ _ _ _ _ _ _ Hpath Hupd). split.
      - intros req seen Hin. cbn in Hin. intuition discriminate.
      - intros v [=]. }
    destruct (Invoke aws (HitCounterJS.invokeParams env event) db1)
      as [e|resp] eqn:Hinv.
    + rewrite (js_run_invoke_failed _ _ _ _ _ _ _ _ Hpath Hupd Hinv).
      cbn [result_of store_of effects_of fst snd]. split.
      * intros req seen Hin. rewrite <- (app_nil_r (relay_calls _ _ _ _ _)) in Hin |- *.
        apply in_relay_calls in Hin as [-> ->]; [|now intros []].
        exists path. repeat split; try assumption.
        apply before_in_relay_calls.
      * intros v [=].
    + rewrite (js_run_served _ _ _ _ _ _ _ _ Hpath Hupd Hinv).
      cbn [result_of store_of effects_of fst snd]. split.
      * intros req seen Hin.
        apply in_relay_calls in Hin as [-> ->];
          [|cbn; intuition discriminate].
        exists path. repeat split; try assumption.
        apply before_in_relay_calls.
      * intros v Hv. exists (HitCounterJS.invokeParams env event), resp.
        repeat split; try assumption.
        exists (prologue event context ++
                [DynamoDBUpdateItem (HitCounterJS.updateItemParams env path);
                 MetricsAddMetric "hit" Count 1; MetricsPublishStoredMetrics])%list,
               [], [].
        unfold relay_calls. now rewrite <- !app_assoc.
Qed.

Lemma C7_get_foo_witness :
  before (DynamoDBUpdateItem (HitCounterTS.updateCommand Stack.env (Str "/foo")))
         (LambdaInvoke (Stack.ts_request Stack.get_foo) Stack.db1)
         (effects_of (Stack.ts_run Stack.aws_v3 Stack.get_foo)) /\
  store_of (Stack.ts_run Stack.aws_v3 Stack.get_foo) = Stack.db1.
Proof.
  destruct (proj1 (proj1 (C7_increment_completes_before_invocation_is_issued
              Json.runtime Stack.env Stack.aws_v3 Stack.get_foo Stack.context Stack.db0))
              (Stack.ts_request Stack.get_foo) Stack.db1)
    as (path & Hpath & _ & Hbefore & Hstore).
  - vm_compute. do 7 right. left. reflexivity.
  - cbn in Hpath. injection Hpath as <-. split; [exact Hbefore|exact Hstore].
Defined.

(** C8.  Every Lambda request a relay issues names the function of
    [DOWNSTREAM_FUNCTION_NAME] and carries as payload the JSON text of the
    whole event, field for field: decoding the payload gives
    [JSON.stringify(event)] back, hence the event itself wherever JSON
    reads back what it printed.  After a successful increment that request
    is issued, once. *)
Theorem C8_full_request_is_forwarded_unmodified :
  forall (rt : JSRuntime) (env : ProcessEnv) (aws : Aws) (event : value)
         (context : Context) (db : DB),
    (let o := HitCounterTS.lambdaHandler env aws event context db in
     (forall req seen,
         In (LambdaInvoke req seen) (effects_of o) ->
         FunctionName req = DOWNSTREAM_FUNCTION_NAME env /\
         Payload req = Bytes (Buffer_from_string (JSON_stringify event)) /\
         Buffer_toString (Blob_bytes (Payload req)) = JSON_stringify event /\
         (JSON_parse (JSON_stringify event) = Some event ->
          JSON_parse (Buffer_toString (Blob_bytes (Payload req))) = Some event)) /\
     (forall path db1,
         event_path event = inr path ->
         UpdateItem aws (HitCounterTS.updateCommand env path) db = inr db1 ->
         lambda_calls (effects_of o) =
           [LambdaInvoke {| FunctionName := DOWNSTREAM_FUNCTION_NAME env;
                            Payload := Bytes (Buffer_from_string (JSON_stringify event)) |}
                         db1]))
    /\
    (let o := HitCounterJS.lambdaHandler env aws event context db in
     (forall req seen,
         In (LambdaInvoke req seen) (effects_of o) ->
         FunctionName req = DOWNSTREAM_FUNCTION_NAME env /\
         Payload req = Text (JSON_stringify event) /\
         Buffer_toString (Blob_bytes (Payload req)) = JSON_stringify event /\
         (JSON_parse (JSON_stringify event) = Some event ->
          JSON_parse (Buffer_toString (Blob_bytes (Payload req))) = Some event)) /\
     (forall path db1,
         event_path event = inr path ->
         UpdateItem aws (HitCounterJS.updateItemParams env path) db = inr db1 ->
         lambda_calls (effects_of o) =
           [LambdaInvoke {| FunctionName := DOWNSTREAM_FUNCTION_NAME env;
                            Payload := Text (JSON_stringify event) |}
                         db1])).
Proof.
  intros rt env aws event context db.
  assert (Hts : forall req,
             req = HitCounterTS.invokeCommand env event ->
             FunctionName req = DOWNSTREAM_FUNCTION_NAME env /\
             Payload req = Bytes (Buffer_from_string (JSON_stringify event)) /\
             Buffer_toString (Blob_bytes (Payload req)) = JSON_stringify event /\
             (JSON_parse (JSON_stringify event) = Some event ->
              JSON_parse (Buffer_toString (Blob_bytes (Payload req))) = Some event)).
  { intros req ->. unfold HitCounterTS.invokeCommand, HitCounterJS.invokeParams.
    cbn [FunctionName Payload Blob_bytes]. rewrite ?Buffer_round_trip. auto. }
  assert (Hjs : forall req,
             req = HitCounterJS.invokeParams env event ->
             FunctionName req = DOWNSTREAM_FUNCTION_NAME env /\
             Payload req = Text (JSON_stringify event) /\
             Buffer_toString (Blob_bytes (Payload req)) = JSON_stringify event /\
             (JSON_parse (JSON_stringify event) = Some event ->
              JSON_parse (Buffer_toString (Blob_bytes (Payload req))) = Some event)).
  { intros req ->. unfold HitCounterTS.invokeCommand, HitCounterJS.invokeParams.
    cbn [FunctionName Payload Blob_bytes]. rewrite ?Buffer_round_trip. auto. }
  split; intros o; subst o; (split; [intros req seen Hin|intros path db1 Hpath Hupd]).
  - apply Hts.
    destruct (event_path event) as [e|path] eqn:Hpath.
    { rewrite (ts_run_no_event _ _ _ _ _ _ Hpath) in Hin.
      cbn in Hin. intuition discriminate. }
    destruct (UpdateItem aws (HitCounterTS.updateCommand env path) db)
      as [e|db1] eqn:Hupd.
    { rewrite (ts_run_store_failed _ _ _ _ _ _ _ Hpath Hupd) in Hin.
      cbn in Hin. intuition discriminate. }
    destruct (Invoke aws (HitCounterTS.invokeCommand env event) db1)
      as [e|resp] eqn:Hinv.
    + rewrite (ts_run_invoke_failed _ _ _ _ _ _ _ _ Hpath Hupd Hinv) in Hin.
      cbn [effects_of snd] in Hin.
      rewrite <- (app_nil_r (relay_calls _ _ _ _ _)) in Hin.
      now apply in_relay_calls in Hin as [-> _]; [|now intros []].
    + rewrite (ts_run_served _ _ _ _ _ _ _ _ Hpath Hupd Hinv) in Hin.
      cbn [effects_of snd] in Hin.
      now apply in_relay_calls in Hin as [-> _]; [|cbn; intuition discriminate].
  - destruct (Invoke aws (HitCounterTS.invokeCommand env event) db1)
      as [e|resp] eqn:Hinv.
    + now rewrite (ts_run_invoke_failed _ _ _ _ _ _ _ _ Hpath Hupd Hinv).
    + now rewrite (ts_run_served _ _ _ _ _ _ _ _ Hpath Hupd Hinv).
  - apply Hjs.
    destruct (event_path event) as [e|path] eqn:Hpath.
    { rewrite (js_run_no_event _ _ _ _ _ _ Hpath) in Hin.
      cbn in Hin. intuition discriminate. }
    destruct (UpdateItem aws (HitCounterJS.updateItemParams env path) db)
      as [e|db1] eqn:Hupd.
    { rewrite (js_run_store_failed _ _ _ _ _ _ _ Hpath Hupd) in Hin.
      cbn in Hin. intuition discriminate. }
    destruct (Invoke aws (HitCounterJS.invokeParams env event) db1)
      as [e|resp] eqn:Hinv.
    + rewrite (js_run_invoke_failed _ _ _ _ _ _ _ _ Hpath Hupd Hinv) in Hin.
      cbn [effects_of snd] in Hin.
      rewrite <- (app_nil_r (relay_calls _ _ _ _ _)) in Hin.
      now apply in_relay_calls in Hin as [-> _]; [|now intros []].
    + rewrite (js_run_served _ _ _ _ _ _ _ _ Hpath Hupd Hinv) in Hin.
      cbn [effects_of snd] in Hin.
      now apply in_relay_calls in Hin as [-> _]; [|cbn; intuition discriminate].
  - destruct (Invoke aws (HitCounterJS.invokeParams env event) db1)
      as [e|resp] eqn:Hinv.
    + now rewrite (js_run_invoke_failed _ _ _ _ _ _ _ _ Hpath Hupd Hinv).
    + now rewrite (js_run_served _ _ _ _ _ _ _ _ Hpath Hupd Hinv).
Qed.

Lemma C8_get_foo_witness :
  In (LambdaInvoke (Stack.ts_request Stack.get_foo) Stack.db1)
     (effects_of (Stack.ts_run Stack.aws_v3 Stack.get_foo)) /\
  Json.parse (Buffer_toString (Blob_bytes (Payload (Stack.ts_request Stack.get_foo))))
    = Some Stack.get_foo.
Proof.
  assert (Hin : In (LambdaInvoke (Stack.ts_request Stack.get_foo) Stack.db1)
                   (effects_of (Stack.ts_run Stack.aws_v3 Stack.get_foo))).
  { vm_compute. do 7 right. left. reflexivity. }
  split; [exact Hin|].
  destruct (proj1 (proj1 (C8_full_request_is_forwarded_unmodified Json.runtime Stack.env
              Stack.aws_v3 Stack.get_foo Stack.context Stack.db0)) _ _ Hin)
    as (_ & _ & _ & Hparse).
  apply Hparse. vm_compute. reflexivity.
Defined.

(** C9, as stated for every request, fails on the request [null]: reading
    [event.path] throws a [TypeError] before any client is called, so no
    increment is issued and the failure is the relay's own. *)
Lemma C9_null_request_never_reaches_the_store :
  Stack.ts_run Stack.aws_v3 Null
    = (inl TypeError, Stack.db0, prologue Null Stack.context) /\
  Stack.js_run Stack.aws_v2 Null
    = (inl TypeError, Stack.db0, prologue Null Stack.context) /\
  dynamodb_calls (effects_of (Stack.ts_run Stack.aws_v3 Null)) = [] /\
  error_kind TypeError = RuntimeError /\
  ~ every_request_reaches_the_store.
Proof.
  repeat split; try reflexivity.
  intros Hclaim.
  destruct (Hclaim Json.runtime Stack.env Stack.aws_v3 Null Stack.context Stack.db0)
    as [(cmd & Hin) _].
  cbn in Hin. intuition discriminate.
Qed.

(** C9, amended.  For every request other than [null] and [undefined],
    with any fields, the relay checks nothing: it issues the increment with
    the value of [event.path] as key, [undefined] when the field is missing
    and the empty string when it is empty, and when the call fails the
    failure is the rejection of the DynamoDB call, the rejection of the
    Lambda call, or the [SyntaxError] of parsing the downstream payload. *)
Theorem C9_relay_performs_no_validation :
  forall (rt : JSRuntime) (env : ProcessEnv) (aws : Aws) (event : value)
         (context : Context) (db : DB),
    is_nullish event = false ->
    (let o := HitCounterTS.lambdaHandler env aws event context db in
     let cmd := {| TableName := HITS_TABLE_NAME env;
                   Key := Obj [("path", member event "path")];
                   UpdateExpression := "ADD hits :incr";
                   ExpressionAttributeValues := Obj [(":incr", Num 1)] |} in
     let req := HitCounterTS.invokeCommand env event in
     In (DynamoDBUpdateItem cmd) (effects_of o) /\
     (forall e, result_of o = inl e ->
        error_kind e <> RuntimeError /\
        ((exists s, UpdateItem aws cmd db = inl s /\ e = DynamoDBClientError s) \/
         (exists db1 s, UpdateItem aws cmd db = inr db1 /\
                        Invoke aws req db1 = inl s /\ e = LambdaClientError s) \/
         (exists db1 resp, UpdateItem aws cmd db = inr db1 /\
                           Invoke aws req db1 = inr resp /\ e = SyntaxError))))
    /\
    (let o := HitCounterJS.lambdaHandler env aws event context db in
     let cmd := {| TableName := HITS_TABLE_NAME env;
                   Key := Obj [("path", Obj [("S", member event "path")])];
                   UpdateExpression := "ADD hits :incr";
                   ExpressionAttributeValues := Obj [(":incr", Obj [("N", Str "1")])] |} in
     let req := HitCounterJS.invokeParams env event in
     In (DynamoDBUpdateItem cmd) (effects_of o) /\
     (forall e, result_of o = inl e ->
        error_kind e <> RuntimeError /\
        ((exists s, UpdateItem aws cmd db = inl s /\ e = DynamoDBClientError s) \/
         (exists db1 s, UpdateItem aws cmd db = inr db1 /\
                        Invoke aws req db1 = inl s /\ e = LambdaClientError s) \/
         (exists db1 resp, UpdateItem aws cmd db = inr db1 /\
                           Invoke aws req db1 = inr resp /\ e = SyntaxError)))).
Proof.
  intros rt env aws event context db Hevent.
  pose proof (event_path_member event Hevent) as Hpath.
  split; intros o cmd req; subst o req.
  - change cmd with (HitCounterTS.updateCommand env (member event "path")). clear cmd.
    destruct (UpdateItem aws (HitCounterTS.updateCommand env (member event "path")) db)
      as [s|db1] eqn:Hupd.
    { rewrite (ts_run_store_failed _ _ _ _ _ _ _ Hpath Hupd).
      cbn [result_of effects_of fst snd]. split.
      - apply in_or_app. right. now left.
      - intros e [= <-]. split; [discriminate|]. left. eauto. }
    destruct (Invoke aws (HitCounterTS.invokeCommand env event) db1)
      as [s|resp] eqn:Hinv.
    + rewrite (ts_run_invoke_failed _ _ _ _ _ _ _ _ Hpath Hupd Hinv).
      cbn [result_of effects_of fst snd]. split.
      * unfold relay_calls. apply in_or_app. right. now left.
      * intros e [= <-]. split; [discriminate|]. right. left. eauto.
    + rewrite (ts_run_served _ _ _ _ _ _ _ _ Hpath Hupd Hinv).
      cbn [result_of effects_of fst snd]. split.
      * unfold relay_calls. apply in_or_app. left. apply in_or_app. right. now left.
      * intros e He. unfold ts_return in He.
        destruct (ResponsePayload resp) as [payload|]; [|discriminate].
        destruct (JSON_parse _); [discriminate|]. injection He as <-.
        split; [discriminate|]. right. right. eauto.
  - change cmd with (HitCounterJS.updateItemParams env (member event "path")). clear cmd.
    destruct (UpdateItem aws (HitCounterJS.updateItemParams env (member event "path")) db)
      as [s|db1] eqn:Hupd.
    { rewrite (js_run_store_failed _ _ _ _ _ _ _ Hpath Hupd).
      cbn [result_of effects_of fst snd]. split.
      - apply in_or_app. right. now left.
      - intros e [= <-]. split; [discriminate|]. left. eauto. }
    destruct (Invoke aws (HitCounterJS.invokeParams env event) db1)
      as [s|resp] eqn:Hinv.
    + rewrite (js_run_invoke_failed _ _ _ _ _ _ _ _ Hpath Hupd Hinv).
      cbn [result_of effects_of fst snd]. split.
      * unfold relay_calls. apply in_or_app. right. now left.
      * intros e [= <-]. split; [discriminate|]. right. left. eauto.
    + rewrite (js_run_served _ _ _ _ _ _ _ _ Hpath Hupd Hinv).
      cbn [result_of effects_of fst snd]. split.
      * unfold relay_calls. apply in_or_app. left. apply in_or_app. right. now left.
      * intros e He. unfold js_return in He.
        destruct (JSON_parse _); [discriminate|]. injection He as <-.
        split; [discriminate|]. right. right. eauto.
Qed.

Lemma C9_missing_and_empty_path_witness :
  In (DynamoDBUpdateItem
        {| TableName := Some "Hits";
           Key := Obj [("path", Undefined)];
           UpdateExpression := "ADD hits :incr";
           ExpressionAttributeValues := Obj [(":incr", Num 1)] |})
     (effects_of (Stack.ts_run Stack.aws_v3 (Obj [("httpMethod", Str "GET")]))) /\
  In (DynamoDBUpdateItem
        {| TableName := Some "Hits";
           Key := Obj [("path", Str EmptyString)];
           UpdateExpression := "ADD hits :incr";
           ExpressionAttributeValues := Obj [(":incr", Num 1)] |})
     (effects_of (Stack.ts_run Stack.aws_v3 (Obj [("path", Str EmptyString)]))) /\
  result_of (Stack.ts_run Stack.aws_v3 (Obj [("path", Str EmptyString)]))
    = inl (DynamoDBClientError ValidationException).
Proof.
  split; [|split].
  - exact (proj1 (proj1 (C9_relay_performs_no_validation Json.runtime Stack.env
             Stack.aws_v3 (Obj [("httpMethod", Str "GET")]) Stack.context Stack.db0
             eq_refl))).
  - exact (proj1 (proj1 (C9_relay_performs_no_validation Json.runtime Stack.env
             Stack.aws_v3 (Obj [("path", Str EmptyString)]) Stack.context Stack.db0
             eq_refl))).
  - vm_compute. reflexivity.
Defined.




(** * The deployed stack, end to end *)

(** A request for [/foo] through the TypeScript relay in front of the hello
    function: the greeting comes back and the table counts one hit. *)
Example relay_in_front_of_hello :
  result_of (Stack.ts_run Stack.aws_v3 Stack.get_foo)
    = inr (Obj [("statusCode", Num 200);
                ("headers", Obj [("Content-Type", Str "text/plain")]);
                ("body", Str ("Hello, World! You've hit " ++ DQUOTE ++ "/foo" ++ DQUOTE
                              ++ "." ++ NEWLINE))]) /\
  store_of (Stack.ts_run Stack.aws_v3 Stack.get_foo) = Stack.db1 /\
  result_of (Stack.js_run Stack.aws_v2 Stack.get_foo)
    = result_of (Stack.ts_run Stack.aws_v3 Stack.get_foo).
Proof. repeat split; vm_compute; reflexivity. Qed.

(** * Further properties of the handlers *)

(** The four ways a relay run can end, as one case analysis. *)
Lemma ts_run_cases {rt : JSRuntime} env aws event context db :
  let o := HitCounterTS.lambdaHandler env aws event context db in
  (exists e, event_path event = inl e /\ o = (inl e, db, prologue event context)) \/
  (exists path e,
      event_path event = inr path /\
      UpdateItem aws (HitCounterTS.updateCommand env path) db = inl e /\
      o = (inl (DynamoDBClientError e), db,
           (prologue event context
              ++ [DynamoDBUpdateItem (HitCounterTS.updateCommand env path)])%list)) \/
  (exists path db1 e,
      event_path event = inr path /\
      UpdateItem aws (HitCounterTS.updateCommand env path) db = inr db1 /\
      Invoke aws (HitCounterTS.invokeCommand env event) db1 = inl e /\
      o = (inl (LambdaClientError e), db1,
           relay_calls event context (HitCounterTS.updateCommand env path)
             (HitCounterTS.invokeCommand env event) db1)) \/
  (exists path db1 resp,
      event_path event = inr path /\
      UpdateItem aws (HitCounterTS.updateCommand env path) db = inr db1 /\
      Invoke aws (HitCounterTS.invokeCommand env event) db1 = inr resp /\
      o = (ts_return resp, db1,
           (relay_calls event context (HitCounterTS.updateCommand env path)
              (HitCounterTS.invokeCommand env event) db1
              ++ [LoggerInfo "Downstream Response:" (LogResponse resp)])%list)).
Proof.
  intros o. subst o.
  destruct (event_path event) as [e|path] eqn:Hpath.
  { left. exists e. split; [reflexivity|]. now apply ts_run_no_event. }
  destruct (UpdateItem aws (HitCounterTS.updateCommand env path) db)
    as [e|db1] eqn:Hupd.
  { right. left. exists path, e. repeat split; try assumption.
    now apply ts_run_store_failed. }
  destruct (Invoke aws (HitCounterTS.invokeCommand env event) db1)
    as [e|resp] eqn:Hinv.
  - right. right. left. exists path, db1, e. repeat split; try assumption.
    now apply ts_run_invoke_failed.
  - right. right. right. exists path, db1, resp. repeat split; try assumption.
    now apply ts_run_served.
Qed.

Lemma js_run_cases {rt : JSRuntime} env aws event context db :
  let o := HitCounterJS.lambdaHandler env aws event context db in
  (exists e, event_path event = inl e /\ o = (inl e, db, prologue event context)) \/
  (exists path e,
      event_path event = inr path /\
      UpdateItem aws (HitCounterJS.updateItemParams env path) db = inl e /\
      o = (inl (DynamoDBClientError e), db,
           (prologue event context
              ++ [DynamoDBUpdateItem (HitCounterJS.updateItemParams env path)])%list)) \/
  (exists path db1 e,
      event_path event = inr path /\
      UpdateItem aws (HitCounterJS.updateItemParams env path) db = inr db1 /\
      Invoke aws (HitCounterJS.invokeParams env event) db1 = inl e /\
      o = (inl (LambdaClientError e), db1,
           relay_calls event context (HitCounterJS.updateItemParams env path)
             (HitCounterJS.invokeParams env event) db1)) \/
  (exists path db1 resp,
      event_path event = inr path /\
      UpdateItem aws (HitCounterJS.updateItemParams env path) db = inr db1 /\
      Invoke aws (HitCounterJS.invokeParams env event) db1 = inr resp /\
      o = (js_return resp, db1,
           (relay_calls event context (HitCounterJS.updateItemParams env path)
              (HitCounterJS.invokeParams env event) db1
              ++ [LoggerInfo "Downstream Response:" (LogResponse resp)])%list)).
Proof.
  intros o. subst o.
  destruct (event_path event) as [e|path] eqn:Hpath.
  { left. exists e. split; [reflexivity|]. now apply js_run_no_event. }
  destruct (UpdateItem aws (HitCounterJS.updateItemParams env path) db)
    as [e|db1] eqn:Hupd.
  { right. left. exists path, e. repeat split; try assumption.
    now apply js_run_store_failed. }
  destruct (Invoke aws (HitCounterJS.invokeParams env event) db1)
    as [e|resp] eqn:Hinv.
  - right. right. left. exists path, db1, e. repeat split; try assumption.
    now apply js_run_invoke_failed.
  - right. right. right. exists path, db1, resp. repeat split; try assumption.
    now apply js_run_served.
Qed.

(** Splits a goal about a relay run into its four endings. *)
Ltac relay_cases run :=
  let e := fresh "e" in
  let path := fresh "path" in
  let db1 := fresh "db1" in
  let resp := fresh "resp" in
  let Hpath := fresh "Hpath" in
  let Hupd := fresh "Hupd" in
  let Hinv := fresh "Hinv" in
  let Hrun := fresh "Hrun" in
  destruct run
    as [(e & Hpath & Hrun)
       |[(path & e & Hpath & Hupd & Hrun)
        |[(path & db1 & e & Hpath & Hupd & Hinv & Hrun)
         |(path & db1 & resp & Hpath & Hupd & Hinv & Hrun)]]];
  cbv zeta in Hrun; rewrite Hrun in *;
  cbn [result_of store_of effects_of fst snd] in *.

(** X1.  Whatever the event (also [null]) and whatever the clients answer,
    a run of any of the four handlers begins with the same four calls, in
    this order: [console.log] and [logger.info] of the incoming event, the
    annotation of the trace with [awsRequestId], the event as metadata. *)
Theorem every_run_begins_by_logging_the_request :
  forall (rt : JSRuntime) (env : ProcessEnv) (aws : Aws) (event : value)
         (context : Context) (db : DB),
    let first_calls :=
      [ConsoleLog "Incoming Request:" (Obj [("event", event)]);
       LoggerInfo "Incoming Request:" (LogValue (Obj [("event", event)]));
       TracerPutAnnotation "awsRequestId" (awsRequestId context);
       TracerPutMetadata "eventPayload" event] in
    (exists rest,
        effects_of (HitCounterTS.lambdaHandler env aws event context db)
          = (first_calls ++ rest)%list) /\
    (exists rest,
        effects_of (HitCounterJS.lambdaHandler env aws event context db)
          = (first_calls ++ rest)%list) /\
    (exists rest,
        effects_of (HelloTS.lambdaHandler event context db) = (first_calls ++ rest)%list) /\
    (exists rest,
        effects_of (HelloJS.lambdaHandler event context db) = (first_calls ++ rest)%list).
Proof.
  intros rt env aws event context db first_calls.
  change first_calls with (prologue event context). clear first_calls.
  repeat split.
  - relay_cases (ts_run_cases env aws event context db); unfold relay_calls;
      rewrite <- ?app_assoc; eauto using app_nil_r.
  - relay_cases (js_run_cases env aws event context db); unfold relay_calls;
      rewrite <- ?app_assoc; eauto using app_nil_r.
  - exists []. rewrite app_nil_r. unfold_handler.
    destruct (event_path event) as [e|path]; [|destruct (ToString path)]; reflexivity.
  - exists []. rewrite app_nil_r. unfold_handler.
    destruct (event_path event) as [e|path]; [|destruct (ToString path)]; reflexivity.
Qed.

(** X2.  A hello handler makes no call besides those four and leaves the
    store alone, for every event; the two hello handlers give the same
    result; and the result depends on nothing but the value of
    [event.path]: not on the other fields, the context or the store. *)
Theorem hello_reads_only_the_path :
  forall (rt : JSRuntime) (event event' : value) (context context' : Context)
         (db db' : DB),
    effects_of (HelloTS.lambdaHandler event context db) = prologue event context /\
    effects_of (HelloJS.lambdaHandler event context db) = prologue event context /\
    store_of (HelloTS.lambdaHandler event context db) = db /\
    store_of (HelloJS.lambdaHandler event context db) = db /\
    result_of (HelloJS.lambdaHandler event context db)
      = result_of (HelloTS.lambdaHandler event context db) /\
    (event_path event = event_path event' ->
     result_of (HelloTS.lambdaHandler event context db)
       = result_of (HelloTS.lambdaHandler event' context' db')).
Proof.
  intros rt event event' context context' db db'.
  repeat split; unfold_handler;
    try (destruct (event_path event) as [e|path]; [|destruct (ToString path)];
         reflexivity).
  intros <-.
  destruct (event_path event) as [e|path]; [|destruct (ToString path)]; reflexivity.
Qed.

Lemma hello_reads_only_the_path_witness :
  result_of (@HelloTS.lambdaHandler Json.runtime Stack.get_foo Stack.context Stack.db0)
    = result_of (@HelloTS.lambdaHandler Json.runtime (Obj [("path", Str "/foo")])
                   {| awsRequestId := "another" |} Stack.db1).
Proof.
  exact (proj2 (proj2 (proj2 (proj2 (proj2
           (hello_reads_only_the_path Json.runtime Stack.get_foo
              (Obj [("path", Str "/foo")]) Stack.context
              {| awsRequestId := "another" |} Stack.db0 Stack.db1))))) eq_refl).
Defined.

(** X3.  A relay run emits the custom metric, [addMetric('hit', Count, 1)]
    followed by [publishStoredMetrics()], exactly when its increment
    succeeded, and emits nothing else to the metrics; when a Lambda request
    is issued, the metric has already been published. *)
Theorem hit_metric_is_published_iff_the_increment_succeeded :
  forall (rt : JSRuntime) (env : ProcessEnv) (aws : Aws) (event : value)
         (context : Context) (db : DB),
    (let o := HitCounterTS.lambdaHandler env aws event context db in
     metrics_calls (effects_of o) =
       (if increment_succeeded (UpdateItem aws) (HitCounterTS.updateCommand env) event db
        then [MetricsAddMetric "hit" Count 1; MetricsPublishStoredMetrics]
        else []) /\
     (forall req seen,
         In (LambdaInvoke req seen) (effects_of o) ->
         before MetricsPublishStoredMetrics (LambdaInvoke req seen) (effects_of o)))
    /\
    (let o := HitCounterJS.lambdaHandler env aws event context db in
     metrics_calls (effects_of o) =
       (if increment_succeeded (UpdateItem aws) (HitCounterJS.updateItemParams env) event db
        then [MetricsAddMetric "hit" Count 1; MetricsPublishStoredMetrics]
        else []) /\
     (forall req seen,
         In (LambdaInvoke req seen) (effects_of o) ->
         before MetricsPublishStoredMetrics (LambdaInvoke req seen) (effects_of o))).
Proof.
  intros rt env aws event context db.
  assert (Hbefore : forall cmd req seen tail req' seen',
             In (LambdaInvoke req' seen')
                (relay_calls event context cmd req seen ++ tail) ->
             ~ In (LambdaInvoke req' seen') tail ->
             before MetricsPublishStoredMetrics (LambdaInvoke req' seen')
                    (relay_calls event context cmd req seen ++ tail)).
  { intros cmd req seen tail req' seen' Hin Htail.
    apply in_relay_calls in Hin as [-> ->]; [|assumption].
    exists (prologue event context ++
            [DynamoDBUpdateItem cmd; MetricsAddMetric "hit" Count 1])%list, [], tail.
    unfold relay_calls. now rewrite <- !app_assoc. }
  split; intros o; subst o; unfold increment_succeeded.
  - relay_cases (ts_run_cases env aws event context db);
      rewrite Hpath, ?Hupd; (split; [reflexivity|]); intros req seen Hin.
    + cbn in Hin. intuition discriminate.
    + cbn in Hin. intuition discriminate.
    + rewrite <- (app_nil_r (relay_calls _ _ _ _ _)) in Hin |- *.
      apply Hbefore; [assumption|now intros []].
    + apply Hbefore; [assumption|cbn; intuition discriminate].
  - relay_cases (js_run_cases env aws event context db);
      rewrite Hpath, ?Hupd; (split; [reflexivity|]); intros req seen Hin.
    + cbn in Hin. intuition discriminate.
    + cbn in Hin. intuition discriminate.
    + rewrite <- (app_nil_r (relay_calls _ _ _ _ _)) in Hin |- *.
      apply Hbefore; [assumption|now intros []].
    + apply Hbefore; [assumption|cbn; intuition discriminate].
Qed.

Lemma hit_metric_witness :
  before MetricsPublishStoredMetrics
         (LambdaInvoke (Stack.ts_request Stack.get_foo) Stack.db1)
         (effects_of (Stack.ts_run Stack.aws_v3 Stack.get_foo)) /\
  metrics_calls (effects_of (Stack.ts_run (Stack.aws_store_down Stack.aws_v3) Stack.get_foo))
    = [].
Proof.
  split.
  - apply (proj2 (proj1 (hit_metric_is_published_iff_the_increment_succeeded
             Json.runtime Stack.env Stack.aws_v3 Stack.get_foo Stack.context Stack.db0))).
    vm_compute. do 7 right. left. reflexivity.
  - exact (proj1 (proj1 (hit_metric_is_published_iff_the_increment_succeeded
             Json.runtime Stack.env (Stack.aws_store_down Stack.aws_v3) Stack.get_foo
             Stack.context Stack.db0))).
Defined.

(** X4.  The downstream response is logged, [logger.info('Downstream
    Response:', ...)], exactly when the Lambda call was served, and then as
    the last call of the run: also when the payload then fails to parse. *)
Theorem downstream_response_is_logged_iff_served :
  forall (rt : JSRuntime) (env : ProcessEnv) (aws : Aws) (event : value)
         (context : Context) (db : DB) (r : InvocationResponse),
    (let o := HitCounterTS.lambdaHandler env aws event context db in
     (In (LoggerInfo "Downstream Response:" (LogResponse r)) (effects_of o) <->
      exists path db1,
        event_path event = inr path /\
        UpdateItem aws (HitCounterTS.updateCommand env path) db = inr db1 /\
        Invoke aws (HitCounterTS.invokeCommand env event) db1 = inr r) /\
     (In (LoggerInfo "Downstream Response:" (LogResponse r)) (effects_of o) ->
      exists earlier,
        effects_of o
          = (earlier ++ [LoggerInfo "Downstream Response:" (LogResponse r)])%list))
    /\
    (let o := HitCounterJS.lambdaHandler env aws event context db in
     (In (LoggerInfo "Downstream Response:" (LogResponse r)) (effects_of o) <->
      exists path db1,
        event_path event = inr path /\
        UpdateItem aws (HitCounterJS.updateItemParams env path) db = inr db1 /\
        Invoke aws (HitCounterJS.invokeParams env event) db1 = inr r) /\
     (In (LoggerInfo "Downstream Response:" (LogResponse r)) (effects_of o) ->
      exists earlier,
        effects_of o
          = (earlier ++ [LoggerInfo "Downstream Response:" (LogResponse r)])%list)).
Proof.
  intros rt env aws event context db r.
  assert (Hlast : forall cmd req seen resp,
             In (LoggerInfo "Downstream Response:" (LogResponse r))
                (relay_calls event context cmd req seen
                   ++ [LoggerInfo "Downstream Response:" (LogResponse resp)]) ->
             resp = r).
  { intros cmd req seen resp Hin. unfold relay_calls, prologue in Hin.
    cbn [app In] in Hin.
    repeat (destruct Hin as [Heq|Hin]; [try discriminate Heq|]).
    - now injection Heq.
    - contradiction. }
  split; intros o; subst o.
  - relay_cases (ts_run_cases env aws event context db).
    + split; [split|].
      * intros Hin. cbn in Hin. intuition discriminate.
      * intros (p & d & Hp & _). congruence.
      * intros Hin. cbn in Hin. intuition discriminate.
    + split; [split|].
      * intros Hin. cbn in Hin. intuition discriminate.
      * intros (p & d & Hp & Hu & _). congruence.
      * intros Hin. cbn in Hin. intuition discriminate.
    + split; [split|].
      * intros Hin. unfold relay_calls in Hin. cbn in Hin. intuition discriminate.
      * intros (p & d & Hp & Hu & Hi). congruence.
      * intros Hin. unfold relay_calls in Hin. cbn in Hin. intuition discriminate.
    + split; [split|].
      * intros Hin. apply Hlast in Hin as <-. eauto.
      * intros (p & d & Hp & Hu & Hi).
        assert (d = db1) as -> by congruence.
        assert (r = resp) as -> by congruence.
        apply in_or_app. right. now left.
      * intros Hin. apply Hlast in Hin as <-. eauto.
  - relay_cases (js_run_cases env aws event context db).
    + split; [split|].
      * intros Hin. cbn in Hin. intuition discriminate.
      * intros (p & d & Hp & _). congruence.
      * intros Hin. cbn in Hin. intuition discriminate.
    + split; [split|].
      * intros Hin. cbn in Hin. intuition discriminate.
      * intros (p & d & Hp & Hu & _). congruence.
      * intros Hin. cbn in Hin. intuition discriminate.
    + split; [split|].
      * intros Hin. unfold relay_calls in Hin. cbn in Hin. intuition discriminate.
      * intros (p & d & Hp & Hu & Hi). congruence.
      * intros Hin. unfold relay_calls in Hin. cbn in Hin. intuition discriminate.
    + split; [split|].
      * intros Hin. apply Hlast in Hin as <-. eauto.
      * intros (p & d & Hp & Hu & Hi).
        assert (d = db1) as -> by congruence.
        assert (r = resp) as -> by congruence.
        apply in_or_app. right. now left.
      * intros Hin. apply Hlast in Hin as <-. eauto.
Qed.

Lemma downstream_response_logged_witness :
  result_of (Stack.ts_run (Stack.aws_answering Stack.aws_v3 (Some Stack.bad_gateway))
               Stack.get_foo) = inl SyntaxError /\
  exists earlier,
    effects_of (Stack.ts_run (Stack.aws_answering Stack.aws_v3 (Some Stack.bad_gateway))
                  Stack.get_foo)
      = (earlier ++
         [LoggerInfo "Downstream Response:"
            (LogResponse {| StatusCode := 200; FunctionError := None;
                            ResponsePayload := Some Stack.bad_gateway |})])%list.
Proof.
  split; [vm_compute; reflexivity|].
  destruct (proj1 (downstream_response_is_logged_iff_served Json.runtime Stack.env
              (Stack.aws_answering Stack.aws_v3 (Some Stack.bad_gateway))
              Stack.get_foo Stack.context Stack.db0
              {| StatusCode := 200; FunctionError := None;
                 ResponsePayload := Some Stack.bad_gateway |})) as [Hiff Hlast].
  apply Hlast. apply Hiff. exists (Str "/foo"), Stack.db1.
  split; [reflexivity|]. split; [vm_compute; reflexivity|reflexivity].
Defined.

(** X5.  The result of a relay is decided by the payload of the served
    response alone: [StatusCode] and [FunctionError] are never looked at.
    A response of a downstream function that threw is therefore returned
    to the caller like any other response. *)
Theorem relay_result_depends_on_the_payload_only :
  forall (rt : JSRuntime) (env : ProcessEnv) (aws aws' : Aws) (event : value)
         (context : Context) (db db1 db1' : DB) (path : value)
         (resp resp' : InvocationResponse),
    event_path event = inr path ->
    ResponsePayload resp = ResponsePayload resp' ->
    (UpdateItem aws (HitCounterTS.updateCommand env path) db = inr db1 ->
     UpdateItem aws' (HitCounterTS.updateCommand env path) db = inr db1' ->
     Invoke aws (HitCounterTS.invokeCommand env event) db1 = inr resp ->
     Invoke aws' (HitCounterTS.invokeCommand env event) db1' = inr resp' ->
     result_of (HitCounterTS.lambdaHandler env aws event context db)
       = result_of (HitCounterTS.lambdaHandler env aws' event context db))
    /\
    (UpdateItem aws (HitCounterJS.updateItemParams env path) db = inr db1 ->
     UpdateItem aws' (HitCounterJS.updateItemParams env path) db = inr db1' ->
     Invoke aws (HitCounterJS.invokeParams env event) db1 = inr resp ->
     Invoke aws' (HitCounterJS.invokeParams env event) db1' = inr resp' ->
     result_of (HitCounterJS.lambdaHandler env aws event context db)
       = result_of (HitCounterJS.lambdaHandler env aws' event context db)).
Proof.
  intros rt env aws aws' event context db db1 db1' path resp resp' Hpath Hpayload.
  split; intros Hupd Hupd' Hinv Hinv'.
  - rewrite (ts_run_served _ _ _ _ _ _ _ _ Hpath Hupd Hinv),
            (ts_run_served _ _ _ _ _ _ _ _ Hpath Hupd' Hinv').
    cbn [result_of fst]. unfold ts_return. now rewrite Hpayload.
  - rewrite (js_run_served _ _ _ _ _ _ _ _ Hpath Hupd Hinv),
            (js_run_served _ _ _ _ _ _ _ _ Hpath Hupd' Hinv').
    cbn [result_of fst]. unfold js_return. now rewrite Hpayload.
Qed.

Lemma function_error_is_returned_witness :
  result_of (Stack.ts_run
               {| UpdateItem := UpdateItem Stack.aws_v3;
                  Invoke := fun _ _ => inr (function_error Stack.hello_foo_payload) |}
               Stack.get_foo)
    = result_of (Stack.ts_run
                   (Stack.aws_answering Stack.aws_v3 (Some Stack.hello_foo_payload))
                   Stack.get_foo).
Proof.
  refine (proj1 (relay_result_depends_on_the_payload_only Json.runtime Stack.env
            {| UpdateItem := UpdateItem Stack.aws_v3;
               Invoke := fun _ _ => inr (function_error Stack.hello_foo_payload) |}
            (Stack.aws_answering Stack.aws_v3 (Some Stack.hello_foo_payload))
            Stack.get_foo Stack.context Stack.db0 Stack.db1 Stack.db1 (Str "/foo")
            (function_error Stack.hello_foo_payload)
            {| StatusCode := 200; FunctionError := None;
               ResponsePayload := Some Stack.hello_foo_payload |}
            eq_refl eq_refl) _ _ eq_refl eq_refl);
    vm_compute; reflexivity.
Defined.

(** X6.  The TypeScript and the JavaScript relay, given clients that
    answer their two forms of the same request alike, leave the same store
    and return the same result, with one exception: on a served response
    without payload the TypeScript relay returns the empty object and the
    JavaScript relay fails with a [SyntaxError]. *)
Theorem the_two_relays_agree_but_on_a_missing_payload :
  forall (rt : JSRuntime) (env : ProcessEnv) (aws3 aws2 : Aws) (event : value)
         (context : Context) (db : DB),
    (forall path,
        event_path event = inr path ->
        UpdateItem aws3 (HitCounterTS.updateCommand env path) db
          = UpdateItem aws2 (HitCounterJS.updateItemParams env path) db) ->
    (forall db1,
        Invoke aws3 (HitCounterTS.invokeCommand env event) db1
          = Invoke aws2 (HitCounterJS.invokeParams env event) db1) ->
    let ts := HitCounterTS.lambdaHandler env aws3 event context db in
    let js := HitCounterJS.lambdaHandler env aws2 event context db in
    store_of ts = store_of js /\
    (result_of ts = result_of js \/
     (result_of ts = inr (Obj []) /\
      result_of js = inl SyntaxError /\
      exists resp,
        Invoke aws3 (HitCounterTS.invokeCommand env event) (store_of ts) = inr resp /\
        ResponsePayload resp = None)).
Proof.
  intros rt env aws3 aws2 event context db Hupdate Hinvoke ts js. subst ts js.
  relay_cases (ts_run_cases env aws3 event context db).
  - rewrite (js_run_no_event _ _ _ _ _ _ Hpath). cbn. auto.
  - rewrite (Hupdate _ Hpath) in Hupd.
    rewrite (js_run_store_failed _ _ _ _ _ _ _ Hpath Hupd). cbn. auto.
  - rewrite (Hupdate _ Hpath) in Hupd. rewrite Hinvoke in Hinv.
    rewrite (js_run_invoke_failed _ _ _ _ _ _ _ _ Hpath Hupd Hinv). cbn. auto.
  - pose proof Hinv as Hinv3.
    rewrite (Hupdate _ Hpath) in Hupd. rewrite Hinvoke in Hinv.
    rewrite (js_run_served _ _ _ _ _ _ _ _ Hpath Hupd Hinv).
    cbn [result_of store_of fst snd]. split; [reflexivity|].
    unfold ts_return, js_return, Buffer_from_bytes.
    destruct (ResponsePayload resp) as [payload|] eqn:Hpayload.
    + left. reflexivity.
    + right. cbn [HitCounterJS.Payload_toString]. rewrite JSON_parse_undefined.
      repeat split. exists resp. auto.
Qed.

Lemma the_two_relays_agree_witness :
  store_of (Stack.ts_run Stack.aws_v3 Stack.get_foo)
    = store_of (Stack.js_run Stack.aws_v2 Stack.get_foo) /\
  result_of (Stack.ts_run Stack.aws_v3 Stack.get_foo)
    = result_of (Stack.js_run Stack.aws_v2 Stack.get_foo).
Proof.
  destruct (the_two_relays_agree_but_on_a_missing_payload Json.runtime Stack.env
              Stack.aws_v3 Stack.aws_v2 Stack.get_foo Stack.context Stack.db0)
    as [Hstore Hresult].
  - intros path Hpath. cbn in Hpath. injection Hpath as <-. vm_compute. reflexivity.
  - intros db1. reflexivity.
  - split; [exact Hstore|].
    destruct Hresult as [Heq|(Hts & _)]; [exact Heq|].
    vm_compute in Hts. discriminate Hts.
Defined.

(** The reference Lambda service runs the named function on the event
    that the payload is the JSON text of. *)
Lemma Lambda_Invoke_runs_the_function {rt : JSRuntime}
    (functions : gmap string Handler) name h req event db1 v :
  FunctionName req = Some name ->
  functions !! name = Some h ->
  Buffer_toString (Blob_bytes (Payload req)) = JSON_stringify event ->
  JSON_parse (JSON_stringify event) = Some event ->
  result_of (h event {| awsRequestId := "downstream" |} db1) = inr v ->
  Lambda_Invoke functions req db1
    = inr {| StatusCode := 200; FunctionError := None;
             ResponsePayload := Some (Buffer_from_string (JSON_stringify v)) |}.
Proof.
  intros Hname Hh Hpayload Hevent Hv. unfold Lambda_Invoke.
  rewrite Hname. cbv beta iota. unfold Handler, M in *. rewrite Hh. cbv beta iota.
  rewrite Hpayload, Hevent. cbv beta iota. now rewrite Hv.
Qed.

(** X7.  A relay in front of a Lambda service that runs the function [h]
    under the name [DOWNSTREAM_FUNCTION_NAME] returns what [h] returns for
    the same event, [h] being run on the store as the increment left it;
    this for every event and every value that JSON prints and reads back. *)
Theorem relay_returns_what_its_downstream_returns :
  forall (rt : JSRuntime) (env : ProcessEnv)
         (update : UpdateItemInput -> DB -> SdkError + DB)
         (functions : gmap string Handler) (name : string) (h : Handler)
         (event : value) (context : Context) (db db1 : DB) (path v : value),
    let aws := {| UpdateItem := update; Invoke := Lambda_Invoke functions |} in
    DOWNSTREAM_FUNCTION_NAME env = Some name ->
    functions !! name = Some h ->
    event_path event = inr path ->
    JSON_parse (JSON_stringify event) = Some event ->
    result_of (h event {| awsRequestId := "downstream" |} db1) = inr v ->
    JSON_parse (JSON_stringify v) = Some v ->
    (update (HitCounterTS.updateCommand env path) db = inr db1 ->
     result_of (HitCounterTS.lambdaHandler env aws event context db) = inr v /\
     store_of (HitCounterTS.lambdaHandler env aws event context db) = db1)
    /\
    (update (HitCounterJS.updateItemParams env path) db = inr db1 ->
     result_of (HitCounterJS.lambdaHandler env aws event context db) = inr v /\
     store_of (HitCounterJS.lambdaHandler env aws event context db) = db1).
Proof.
  intros rt env update functions name h event context db db1 path v aws
         Hname Hh Hpath Hevent Hv Hround.
  split; intros Hupd.
  - assert (Hinv : Invoke aws (HitCounterTS.invokeCommand env event) db1
                   = inr {| StatusCode := 200; FunctionError := None;
                            ResponsePayload :=
                              Some (Buffer_from_string (JSON_stringify v)) |}).
    { apply (Lambda_Invoke_runs_the_function functions name h _ event); try assumption.
      apply Buffer_round_trip. }
    rewrite (ts_run_served env aws _ _ _ _ _ _ Hpath Hupd Hinv).
    cbn [result_of store_of fst snd]. split; [|reflexivity].
    unfold ts_return, Buffer_from_bytes. cbn [ResponsePayload].
    now rewrite Buffer_round_trip, Hround.
  - assert (Hinv : Invoke aws (HitCounterJS.invokeParams env event) db1
                   = inr {| StatusCode := 200; FunctionError := None;
                            ResponsePayload :=
                              Some (Buffer_from_string (JSON_stringify v)) |}).
    { apply (Lambda_Invoke_runs_the_function functions name h _ event); try assumption.
      apply Buffer_round_trip. }
    rewrite (js_run_served env aws _ _ _ _ _ _ Hpath Hupd Hinv).
    cbn [result_of store_of fst snd]. split; [|reflexivity].
    unfold js_return. cbn [ResponsePayload HitCounterJS.Payload_toString].
    now rewrite Buffer_round_trip, Hround.
Qed.

Lemma relay_returns_what_hello_returns_witness :
  result_of (Stack.ts_run Stack.aws_v3 Stack.get_foo) = inr (greeting "/foo") /\
  store_of (Stack.ts_run Stack.aws_v3 Stack.get_foo) = Stack.db1.
Proof.
  refine (proj1 (relay_returns_what_its_downstream_returns Json.runtime Stack.env
            (@DocumentClient_update Json.runtime) Stack.functions
            "hello-hitcounter-function" (@HelloTS.lambdaHandler Json.runtime)
            Stack.get_foo Stack.context Stack.db0 Stack.db1 (Str "/foo")
            (greeting "/foo") eq_refl _ eq_refl _ _ _) _);
    vm_compute; reflexivity.
Defined.

(** What a hello handler returns once [event.path] has been read and
    printed. *)
Lemma hello_result {rt : JSRuntime} event context db path shown :
  event_path event = inr path ->
  ToString path = inr shown ->
  result_of (HelloTS.lambdaHandler event context db) = inr (greeting shown) /\
  result_of (HelloJS.lambdaHandler event context db)
    = result_of (HelloTS.lambdaHandler event context db).
Proof. intros Hpath Hshown. unfold_handler. now rewrite Hpath, Hshown. Qed.

(** X8.  A request that carries no [path] is still greeted with status
    200: the template literal prints the missing path as [undefined], and
    a [null] path as [null]. *)
Theorem hello_greets_a_missing_path_as_undefined :
  forall (rt : JSRuntime) (event : value) (context : Context) (db : DB),
    is_nullish event = false ->
    (member event "path" = Undefined ->
     result_of (HelloTS.lambdaHandler event context db) = inr (greeting "undefined") /\
     result_of (HelloJS.lambdaHandler event context db) = inr (greeting "undefined")) /\
    (member event "path" = Null ->
     result_of (HelloTS.lambdaHandler event context db) = inr (greeting "null") /\
     result_of (HelloJS.lambdaHandler event context db) = inr (greeting "null")).
Proof.
  intros rt event context db Hevent.
  pose proof (event_path_member event Hevent) as Hpath.
  split; intros Hmember; rewrite Hmember in Hpath;
    destruct (hello_result event context db _ _ Hpath eq_refl) as [Hts Hjs];
    rewrite Hjs, Hts; now split.
Qed.

Lemma hello_missing_path_witness :
  result_of (@HelloTS.lambdaHandler Json.runtime (Obj [("httpMethod", Str "GET")])
               Stack.context Stack.db0) = inr (greeting "undefined") /\
  result_of (@HelloTS.lambdaHandler Json.runtime (Obj [("path", Null)])
               Stack.context Stack.db0) = inr (greeting "null").
Proof.
  split.
  - exact (proj1 (proj1 (hello_greets_a_missing_path_as_undefined Json.runtime
             (Obj [("httpMethod", Str "GET")]) Stack.context Stack.db0 eq_refl) eq_refl)).
  - exact (proj1 (proj2 (hello_greets_a_missing_path_as_undefined Json.runtime
             (Obj [("path", Null)]) Stack.context Stack.db0 eq_refl) eq_refl)).
Defined.

Lemma append_length (a b : string) :
  String.length (a ++ b) = (String.length a + String.length b)%nat.
Proof. induction a as [|c a IH]; simpl; [reflexivity|now f_equal]. Qed.

Lemma append_cancel_r (b x y : string) : x ++ b = y ++ b -> x = y.
Proof.
  revert y. induction x as [|c x IH]; intros [|d y] H.
  - reflexivity.
  - apply (f_equal String.length) in H. rewrite !append_length in H. cbn in H. lia.
  - apply (f_equal String.length) in H. rewrite !append_length in H. cbn in H. lia.
  - cbn in H. injection H as -> H. f_equal. now apply IH.
Qed.

(** X9.  The greeting tells string paths apart: two requests whose paths
    are strings get the same response from the hello handler only when the
    two paths are the same string. *)
Theorem hello_greeting_identifies_the_path :
  forall (rt : JSRuntime) (event event' : value) (context context' : Context)
         (db db' : DB) (p q : string),
    has_path p event ->
    has_path q event' ->
    (result_of (HelloTS.lambdaHandler event context db)
       = result_of (HelloTS.lambdaHandler event' context' db') <-> p = q) /\
    (result_of (HelloJS.lambdaHandler event context db)
       = result_of (HelloJS.lambdaHandler event' context' db') <-> p = q).
Proof.
  intros rt event event' context context' db db' p q Hp Hq.
  destruct (hello_result event context db _ p Hp eq_refl) as [Hts Hjs].
  destruct (hello_result event' context' db' _ q Hq eq_refl) as [Hts' Hjs'].
  rewrite Hjs, Hjs', Hts, Hts'. unfold greeting.
  assert (Hiff : inr (B := value) (A := JsError)
                   (Obj [("statusCode", Num 200);
                         ("headers", Obj [("Content-Type", Str "text/plain")]);
                         ("body", Str ("Hello, World! You've hit " ++ DQUOTE ++ p
                                       ++ DQUOTE ++ "." ++ NEWLINE))])
                 = inr (Obj [("statusCode", Num 200);
                             ("headers", Obj [("Content-Type", Str "text/plain")]);
                             ("body", Str ("Hello, World! You've hit " ++ DQUOTE ++ q
                                           ++ DQUOTE ++ "." ++ NEWLINE))])
                 <-> p = q).
  { split; [|now intros ->].
    intros [= H]. apply (append_cancel_r (DQUOTE ++ "." ++ NEWLINE)). exact H. }
  split; exact Hiff.
Qed.

Lemma hello_greeting_identifies_the_path_witness :
  result_of (@HelloTS.lambdaHandler Json.runtime Stack.get_foo Stack.context Stack.db0)
    = result_of (@HelloTS.lambdaHandler Json.runtime (Obj [("path", Str "/bar")])
                   Stack.context Stack.db1)
  <-> "/foo" = "/bar".
Proof.
  exact (proj1 (hello_greeting_identifies_the_path Json.runtime Stack.get_foo
           (Obj [("path", Str "/bar")]) Stack.context Stack.context Stack.db0 Stack.db1
           "/foo" "/bar" eq_refl eq_refl)).
Defined.

(** * The constructs and the handlers together *)

(** The environment [HitCounter] declares, as the relay reads it. *)
Lemma process_env_of_HitCounter id props :
  Deployed.process_env (Lib.handler (Lib.new_HitCounter id props)) =
    {| HITS_TABLE_NAME := Some (Lib.tableName props);
       DOWNSTREAM_FUNCTION_NAME := Some (Cdk.functionName (Lib.downstream props)) |}.
Proof. reflexivity. Qed.

Lemma may_update_HitCounter id props :
  Deployed.may_update (Lib.grants (Lib.new_HitCounter id props))
    (Lib.handler (Lib.new_HitCounter id props)) (Some (Lib.tableName props)) = true.
Proof.
  cbn. now rewrite !String.eqb_refl.
Qed.

Lemma may_invoke_HitCounter id props :
  Deployed.may_invoke (Lib.grants (Lib.new_HitCounter id props))
    (Lib.handler (Lib.new_HitCounter id props))
    (Some (Cdk.functionName (Lib.downstream props))) = true.
Proof.
  cbn. now rewrite !String.eqb_refl.
Qed.

(** X10.  The function that [HitCounter] declares is wired to what the
    relay reads: with the declared environment, every DynamoDB call of the
    relay names the table of the construct and keys it by the partition key
    the table is declared with, and every Lambda call names the function
    given as [downstream]. *)
Theorem HitCounter_wires_the_relay_to_its_table_and_downstream :
  forall (rt : JSRuntime) (id : string) (props : Lib.HitCounterProps) (aws : Aws)
         (event : value) (context : Context) (db : DB),
    let hc := Lib.new_HitCounter id props in
    let env := Deployed.process_env (Lib.handler hc) in
    let key := Cdk.name (Cdk.partitionKey (Lib.table hc)) in
    (let o := HitCounterTS.lambdaHandler env aws event context db in
     (forall cmd,
         In (DynamoDBUpdateItem cmd) (effects_of o) ->
         TableName cmd = Some (Cdk.tableName (Lib.table hc)) /\
         exists path, event_path event = inr path /\ Key cmd = Obj [(key, path)]) /\
     (forall req seen,
         In (LambdaInvoke req seen) (effects_of o) ->
         FunctionName req = Some (Cdk.functionName (Lib.downstream props))))
    /\
    (let o := HitCounterJS.lambdaHandler env aws event context db in
     (forall cmd,
         In (DynamoDBUpdateItem cmd) (effects_of o) ->
         TableName cmd = Some (Cdk.tableName (Lib.table hc)) /\
         exists path, event_path event = inr path /\
                      Key cmd = Obj [(key, Obj [("S", path)])]) /\
     (forall req seen,
         In (LambdaInvoke req seen) (effects_of o) ->
         FunctionName req = Some (Cdk.functionName (Lib.downstream props)))).
Proof.
  intros rt id props aws event context db hc env key. subst hc env key.
  rewrite process_env_of_HitCounter.
  assert (Hcmd : forall cmd cmd0 tail,
             In (DynamoDBUpdateItem cmd)
                (prologue event context ++ DynamoDBUpdateItem cmd0 :: tail) ->
             (forall c, ~ In (DynamoDBUpdateItem c) tail) ->
             cmd = cmd0).
  { intros cmd cmd0 tail Hin Htail. unfold prologue in Hin.
    cbn [app In] in Hin.
    repeat (destruct Hin as [Heq|Hin]; [try discriminate Heq|]).
    - now injection Heq.
    - now apply Htail in Hin. }
  split; intros o; subst o; split.
  - intros cmd Hin.
    relay_cases (ts_run_cases
                   {| HITS_TABLE_NAME := Some (Lib.tableName props);
                      DOWNSTREAM_FUNCTION_NAME :=
                        Some (Cdk.functionName (Lib.downstream props)) |}
                   aws event context db).
    + cbn in Hin. intuition discriminate.
    + apply Hcmd in Hin as ->; [|now intros c []].
      split; [reflexivity|]. exists path. now split.
    + unfold relay_calls in Hin. cbn [app] in Hin.
      apply Hcmd in Hin as ->; [|intros c Hc; cbn in Hc; intuition discriminate].
      split; [reflexivity|]. exists path. now split.
    + unfold relay_calls in Hin. rewrite <- app_assoc in Hin. cbn [app] in Hin.
      apply Hcmd in Hin as ->; [|intros c Hc; cbn in Hc; intuition discriminate].
      split; [reflexivity|]. exists path. now split.
  - intros req seen Hin.
    relay_cases (ts_run_cases
                   {| HITS_TABLE_NAME := Some (Lib.tableName props);
                      DOWNSTREAM_FUNCTION_NAME :=
                        Some (Cdk.functionName (Lib.downstream props)) |}
                   aws event context db).
    + cbn in Hin. intuition discriminate.
    + cbn in Hin. intuition discriminate.
    + rewrite <- (app_nil_r (relay_calls _ _ _ _ _)) in Hin.
      now apply in_relay_calls in Hin as [-> _]; [|now intros []].
    + now apply in_relay_calls in Hin as [-> _]; [|cbn; intuition discriminate].
  - intros cmd Hin.
    relay_cases (js_run_cases
                   {| HITS_TABLE_NAME := Some (Lib.tableName props);
                      DOWNSTREAM_FUNCTION_NAME :=
                        Some (Cdk.functionName (Lib.downstream props)) |}
                   aws event context db).
    + cbn in Hin. intuition discriminate.
    + apply Hcmd in Hin as ->; [|now intros c []].
      split; [reflexivity|]. exists path. now split.
    + unfold relay_calls in Hin. cbn [app] in Hin.
      apply Hcmd in Hin as ->; [|intros c Hc; cbn in Hc; intuition discriminate].
      split; [reflexivity|]. exists path. now split.
    + unfold relay_calls in Hin. rewrite <- app_assoc in Hin. cbn [app] in Hin.
      apply Hcmd in Hin as ->; [|intros c Hc; cbn in Hc; intuition discriminate].
      split; [reflexivity|]. exists path. now split.
  - intros req seen Hin.
    relay_cases (js_run_cases
                   {| HITS_TABLE_NAME := Some (Lib.tableName props);
                      DOWNSTREAM_FUNCTION_NAME :=
                        Some (Cdk.functionName (Lib.downstream props)) |}
                   aws event context db).
    + cbn in Hin. intuition discriminate.
    + cbn in Hin. intuition discriminate.
    + rewrite <- (app_nil_r (relay_calls _ _ _ _ _)) in Hin.
      now apply in_relay_calls in Hin as [-> _]; [|now intros []].
    + now apply in_relay_calls in Hin as [-> _]; [|cbn; intuition discriminate].
Qed.

Lemma HitCounter_wiring_witness :
  TableName (HitCounterTS.updateCommand Stack.env (Str "/foo")) = Some "Hits" /\
  FunctionName (Stack.ts_request Stack.get_foo) = Some "hello-hitcounter-function".
Proof.
  destruct (proj1 (HitCounter_wires_the_relay_to_its_table_and_downstream Json.runtime
              "HitCounterFunction"
              {| Lib.downstream := Lib.helloFunction Bin.app;
                 Lib.functionName := "hitcounter-function";
                 Lib.entryPath := "../lambda/typescript/hitcounter.ts";
                 Lib.tableName := "Hits" |}
              Stack.aws_v3 Stack.get_foo Stack.context Stack.db0)) as [Hcmd Hreq].
  split.
  - apply (Hcmd (HitCounterTS.updateCommand Stack.env (Str "/foo"))).
    vm_compute. do 4 right. left. reflexivity.
  - apply (Hreq (Stack.ts_request Stack.get_foo) Stack.db1).
    vm_compute. do 7 right. left. reflexivity.
Defined.

(** The guard lets the requests of the relay of [HitCounter] through. *)
Lemma guarded_update_HitCounter {rt : JSRuntime} id props services path db :
  let hc := Lib.new_HitCounter id props in
  let env := Deployed.process_env (Lib.handler hc) in
  (UpdateItem (Deployed.document_clients
                 (Deployed.guarded (Lib.grants hc) (Lib.handler hc) services))
     (HitCounterTS.updateCommand env path) db
   = UpdateItem (Deployed.document_clients services)
       (HitCounterTS.updateCommand env path) db) /\
  (UpdateItem (Deployed.guarded (Lib.grants hc) (Lib.handler hc) services)
     (HitCounterJS.updateItemParams env path) db
   = UpdateItem services (HitCounterJS.updateItemParams env path) db).
Proof.
  intros hc env. subst hc env. rewrite process_env_of_HitCounter.
  unfold Deployed.document_clients, Deployed.guarded, DocumentClient_send,
    HitCounterTS.updateCommand, HitCounterJS.updateItemParams.
  cbn [UpdateItem TableName Key ExpressionAttributeValues HITS_TABLE_NAME].
  rewrite (may_update_HitCounter id props). split; [|reflexivity].
  destruct (marshall_members (Obj [("path", path)])); [|reflexivity].
  destruct (marshall_members (Obj [(":incr", Num 1)])); reflexivity.
Qed.

Lemma guarded_invoke_HitCounter {rt : JSRuntime} id props services event db :
  let hc := Lib.new_HitCounter id props in
  let env := Deployed.process_env (Lib.handler hc) in
  (Invoke (Deployed.document_clients
             (Deployed.guarded (Lib.grants hc) (Lib.handler hc) services))
     (HitCounterTS.invokeCommand env event) db
   = Invoke (Deployed.document_clients services)
       (HitCounterTS.invokeCommand env event) db) /\
  (Invoke (Deployed.guarded (Lib.grants hc) (Lib.handler hc) services)
     (HitCounterJS.invokeParams env event) db
   = Invoke services (HitCounterJS.invokeParams env event) db).
Proof.
  intros hc env. subst hc env. rewrite process_env_of_HitCounter.
  unfold Deployed.document_clients, Deployed.guarded,
    HitCounterTS.invokeCommand, HitCounterJS.invokeParams.
  cbn [Invoke FunctionName DOWNSTREAM_FUNCTION_NAME].
  now rewrite (may_invoke_HitCounter id props).
Qed.

(** Without a grant the document client still marshalls first: a path
    that cannot be marshalled fails in the client, any other request is
    refused by the service. *)
Lemma ungranted_update {rt : JSRuntime} f services env path db :
  UpdateItem (Deployed.document_clients (Deployed.guarded [] f services))
    (HitCounterTS.updateCommand env path) db
  = inl match marshall path with
        | Some _ => Deployed.AccessDeniedException
        | None => {| error_name := "Error" |}
        end.
Proof.
  unfold Deployed.document_clients, Deployed.guarded, DocumentClient_send,
    HitCounterTS.updateCommand.
  cbn [UpdateItem TableName Key ExpressionAttributeValues].
  cbn. now destruct (marshall path).
Qed.

(** A relay run is decided by what its clients answer to its own two
    requests. *)
Lemma ts_run_ext {rt : JSRuntime} env aws aws' event context db :
  (forall path, UpdateItem aws' (HitCounterTS.updateCommand env path) db
                = UpdateItem aws (HitCounterTS.updateCommand env path) db) ->
  (forall db1, Invoke aws' (HitCounterTS.invokeCommand env event) db1
               = Invoke aws (HitCounterTS.invokeCommand env event) db1) ->
  HitCounterTS.lambdaHandler env aws' event context db
    = HitCounterTS.lambdaHandler env aws event context db.
Proof.
  intros Hupdate Hinvoke.
  relay_cases (ts_run_cases env aws event context db).
  - now apply ts_run_no_event.
  - apply ts_run_store_failed; [assumption|]. now rewrite Hupdate.
  - apply ts_run_invoke_failed; [assumption| |]; now rewrite ?Hupdate, ?Hinvoke.
  - apply ts_run_served; [assumption| |]; now rewrite ?Hupdate, ?Hinvoke.
Qed.

Lemma js_run_ext {rt : JSRuntime} env aws aws' event context db :
  (forall path, UpdateItem aws' (HitCounterJS.updateItemParams env path) db
                = UpdateItem aws (HitCounterJS.updateItemParams env path) db) ->
  (forall db1, Invoke aws' (HitCounterJS.invokeParams env event) db1
               = Invoke aws (HitCounterJS.invokeParams env event) db1) ->
  HitCounterJS.lambdaHandler env aws' event context db
    = HitCounterJS.lambdaHandler env aws event context db.
Proof.
  intros Hupdate Hinvoke.
  relay_cases (js_run_cases env aws event context db).
  - now apply js_run_no_event.
  - apply js_run_store_failed; [assumption|]. now rewrite Hupdate.
  - apply js_run_invoke_failed; [assumption| |]; now rewrite ?Hupdate, ?Hinvoke.
  - apply js_run_served; [assumption| |]; now rewrite ?Hupdate, ?Hinvoke.
Qed.

(** X11.  The two grants of [HitCounter], [grantReadWriteData] on its
    table and [grantInvoke] on the downstream, cover every request of the
    relay it declares: in front of endpoints that refuse any request
    without a grant the relay runs exactly as in front of unrestricted
    ones, for every event, and every call it records is a granted one.
    With no grant at all no request other than [null] and [undefined] gets
    past the store call: the run fails there, the store is left as found
    and the downstream is not invoked.  The document client marshalls
    before it sends, so a path it cannot marshall fails in the client with
    its own [Error], as it does with the grant; a request for a non-empty
    string path reaches the service and is refused with
    [AccessDeniedException]. *)
Theorem HitCounter_grants_cover_the_calls_of_the_relay :
  forall (rt : JSRuntime) (id : string) (props : Lib.HitCounterProps) (services : Aws)
         (event : value) (context : Context) (db : DB),
    let hc := Lib.new_HitCounter id props in
    let env := Deployed.process_env (Lib.handler hc) in
    HitCounterTS.lambdaHandler env
        (Deployed.document_clients
           (Deployed.guarded (Lib.grants hc) (Lib.handler hc) services))
        event context db
      = HitCounterTS.lambdaHandler env (Deployed.document_clients services)
          event context db /\
    HitCounterJS.lambdaHandler env
        (Deployed.guarded (Lib.grants hc) (Lib.handler hc) services) event context db
      = HitCounterJS.lambdaHandler env services event context db /\
    (forall aws e,
        In e (effects_of (HitCounterTS.lambdaHandler env aws event context db)) ->
        Deployed.permitted (Lib.grants hc) (Lib.handler hc) e = true) /\
    (is_nullish event = false ->
     let o := HitCounterTS.lambdaHandler env
                (Deployed.document_clients (Deployed.guarded [] (Lib.handler hc) services))
                event context db in
     (exists e, result_of o = inl (DynamoDBClientError e)) /\
     store_of o = db /\
     lambda_calls (effects_of o) = [] /\
     (marshall (member event "path") = None ->
      result_of o = inl (DynamoDBClientError {| error_name := "Error" |})) /\
     (forall p, has_path p event -> p <> EmptyString ->
      result_of o = inl (DynamoDBClientError Deployed.AccessDeniedException))).
Proof.
  intros rt id props services event context db hc env.
  split; [|split; [|split]].
  - apply ts_run_ext.
    + intros path. apply (guarded_update_HitCounter id props services path db).
    + intros db1. apply (guarded_invoke_HitCounter id props services event db1).
  - apply js_run_ext.
    + intros path. apply (guarded_update_HitCounter id props services path db).
    + intros db1. apply (guarded_invoke_HitCounter id props services event db1).
  - intros aws e Hin. subst hc env.
    pose proof (may_update_HitCounter id props) as Hu.
    pose proof (may_invoke_HitCounter id props) as Hi.
    revert Hin. rewrite process_env_of_HitCounter.
    relay_cases (ts_run_cases
                   {| HITS_TABLE_NAME := Some (Lib.tableName props);
                      DOWNSTREAM_FUNCTION_NAME :=
                        Some (Cdk.functionName (Lib.downstream props)) |}
                   aws event context db);
      unfold relay_calls, prologue; cbn [app In]; intros Hin;
      repeat (destruct Hin as [<-|Hin]; [try reflexivity; assumption|]);
      contradiction.
  - intros Hevent o. subst o hc env.
    pose proof (event_path_member event Hevent) as Hpath.
    rewrite (ts_run_store_failed _ _ _ _ _ _ _ Hpath (ungranted_update _ _ _ _ _)).
    cbn [result_of store_of effects_of fst snd].
    split; [eauto|]. split; [reflexivity|]. split; [reflexivity|]. split.
    + now intros ->.
    + intros p Hp _. unfold has_path in Hp. rewrite Hpath in Hp.
      injection Hp as ->. reflexivity.
Qed.

Lemma HitCounter_grants_witness :
  result_of (HitCounterTS.lambdaHandler (rt := Json.runtime)
               (Deployed.process_env (Lib.handler (Lib.hitCounterFunction Bin.app)))
               (@Deployed.document_clients Json.runtime
                  (Deployed.guarded [] (Lib.handler (Lib.hitCounterFunction Bin.app))
                     (@Deployed.endpoints Json.runtime Bin.app)))
               Stack.get_foo Stack.context (Deployed.tables Bin.app))
    = inl (DynamoDBClientError Deployed.AccessDeniedException) /\
  result_of (HitCounterTS.lambdaHandler (rt := Json.runtime)
               (Deployed.process_env (Lib.handler (Lib.hitCounterFunction Bin.app)))
               (@Deployed.document_clients Json.runtime
                  (Deployed.guarded [] (Lib.handler (Lib.hitCounterFunction Bin.app))
                     (@Deployed.endpoints Json.runtime Bin.app)))
               (Obj []) Stack.context (Deployed.tables Bin.app))
    = inl (DynamoDBClientError {| error_name := "Error" |}).
Proof.
  split.
  - refine (proj2 (proj2 (proj2 (proj2 (proj2 (proj2 (proj2
             (HitCounter_grants_cover_the_calls_of_the_relay
             Json.runtime "HitCounterFunction"
             {| Lib.downstream := Lib.helloFunction Bin.app;
                Lib.functionName := "hitcounter-function";
                Lib.entryPath := "../lambda/typescript/hitcounter.ts";
                Lib.tableName := "Hits" |}
             (@Deployed.endpoints Json.runtime Bin.app) Stack.get_foo Stack.context
             (Deployed.tables Bin.app)))) eq_refl)))) "/foo" eq_refl _).
    discriminate.
  - exact (proj1 (proj2 (proj2 (proj2 (proj2 (proj2 (proj2
             (HitCounter_grants_cover_the_calls_of_the_relay
             Json.runtime "HitCounterFunction"
             {| Lib.downstream := Lib.helloFunction Bin.app;
                Lib.functionName := "hitcounter-function";
                Lib.entryPath := "../lambda/typescript/hitcounter.ts";
                Lib.tableName := "Hits" |}
             (@Deployed.endpoints Json.runtime Bin.app) (Obj []) Stack.context
             (Deployed.tables Bin.app)))) eq_refl)))) eq_refl).
Defined.

(** The stack of [bin/hitcounter.ts] calls the relay with the environment
    of its hit counter function, behind the granted clients. *)
Lemma api_of_app {rt : JSRuntime} :
  Deployed.api Bin.app
    = Some (HitCounterTS.lambdaHandler
              {| HITS_TABLE_NAME := Some "Hits";
                 DOWNSTREAM_FUNCTION_NAME := Some "hello-hitcounter-function" |}
              (Deployed.clients Bin.app)).
Proof. reflexivity. Qed.

Lemma functions_of_app {rt : JSRuntime} :
  Deployed.functions Bin.app !! "hello-hitcounter-function"
    = Some HelloTS.lambdaHandler.
Proof. apply (lookup_singleton_eq (M := gmap string)). Qed.

(** X12.  The stack that [bin/hitcounter.ts] instantiates works end to
    end: the REST API calls the hit counter function, whose grants and
    environment let it raise the counter of the requested path in the
    [Hits] table by one and invoke the hello function, whose greeting for
    that path comes back as the answer; the table that the stack declares
    exists from the start.  This for every request with a non-empty string
    path that JSON prints and reads back. *)
Theorem the_declared_stack_counts_the_hit_and_greets :
  forall (rt : JSRuntime) (event : value) (context : Context) (db : DB) (p : string),
    has_path p event ->
    p <> EmptyString ->
    is_Some (db !! "Hits") ->
    JSON_parse (JSON_stringify event) = Some event ->
    JSON_parse (JSON_stringify (greeting p)) = Some (greeting p) ->
    is_Some (Deployed.tables Bin.app !! "Hits") /\
    exists h : Handler,
      Deployed.api Bin.app = Some h /\
      result_of (h event context db) = inr (greeting p) /\
      store_of (h event context db) = add_hits "Hits" p 1 db /\
      hits (store_of (h event context db)) "Hits" p = hits db "Hits" p + 1.
Proof.
  intros rt event context db p Hpath Hp Htable Hevent Hgreeting.
  split.
  { exists ∅. reflexivity. }
  eexists. split; [apply api_of_app|].
  set (env := {| HITS_TABLE_NAME := Some "Hits";
                 DOWNSTREAM_FUNCTION_NAME := Some "hello-hitcounter-function" |}).
  assert (Hupd : UpdateItem (Deployed.clients Bin.app)
                   (HitCounterTS.updateCommand env (Str p)) db
                 = inr (add_hits "Hits" p 1 db)).
  { change (@DocumentClient_update Json.runtime
              (HitCounterTS.updateCommand env (Str p)) db
            = inr (add_hits "Hits" p 1 db)).
    now apply v3_update_accepted. }
  assert (Hinv : Invoke (Deployed.clients Bin.app)
                   (HitCounterTS.invokeCommand env event) (add_hits "Hits" p 1 db)
                 = inr {| StatusCode := 200; FunctionError := None;
                          ResponsePayload :=
                            Some (Buffer_from_string (JSON_stringify (greeting p))) |}).
  { change (Lambda_Invoke (Deployed.functions Bin.app)
              (HitCounterTS.invokeCommand env event) (add_hits "Hits" p 1 db)
            = inr {| StatusCode := 200; FunctionError := None;
                     ResponsePayload :=
                       Some (Buffer_from_string (JSON_stringify (greeting p))) |}).
    apply (Lambda_Invoke_runs_the_function _ "hello-hitcounter-function"
             HelloTS.lambdaHandler _ event).
    - reflexivity.
    - apply functions_of_app.
    - apply Buffer_round_trip.
    - assumption.
    - apply (hello_result event _ _ (Str p) p Hpath eq_refl). }
  rewrite (ts_run_served env _ _ _ _ _ _ _ Hpath Hupd Hinv).
  cbn [result_of store_of fst snd].
  split; [|split; [reflexivity|now apply hits_add_hits_same]].
  unfold ts_return, Buffer_from_bytes. cbn [ResponsePayload].
  now rewrite Buffer_round_trip, Hgreeting.
Qed.

Lemma the_declared_stack_witness :
  exists h : Handler,
    @Deployed.api Json.runtime Bin.app = Some h /\
    result_of (h Stack.get_foo Stack.context (Deployed.tables Bin.app))
      = inr (greeting "/foo") /\
    store_of (h Stack.get_foo Stack.context (Deployed.tables Bin.app))
      = add_hits "Hits" "/foo" 1 (Deployed.tables Bin.app) /\
    hits (store_of (h Stack.get_foo Stack.context (Deployed.tables Bin.app))) "Hits" "/foo"
      = hits (Deployed.tables Bin.app) "Hits" "/foo" + 1.
Proof.
  refine (proj2 (the_declared_stack_counts_the_hit_and_greets Json.runtime
            Stack.get_foo Stack.context (Deployed.tables Bin.app) "/foo"
            eq_refl _ _ _ _)).
  - discriminate.
  - exists ∅. reflexivity.
  - vm_compute. reflexivity.
  - vm_compute. reflexivity.
Defined.
